(** * linear-updates: the weekly-report pipeline, embedded and verified

    A shallow embedding of the fact-extraction and report-assembly code of
    [linear_updates] ([draft.py], [cli.py], [linear_client.py]) together with
    the properties its specification states about it.

    Conventions.
    - A Python [str] is a list of Unicode code points ([pystr]); [len] is
      [length].
    - A timezone-aware [datetime] is the number of microseconds since the
      epoch, an integer ([instant]); comparison of aware datetimes is
      comparison of these integers.
    - Exceptions are values of [exn]; code that may raise returns a
      [result]. *)

From Stdlib Require Import ZArith NArith List Lia Bool String Ascii Sorted DecimalString.
From stdpp Require Import base option list gmap.
Import ListNotations.

Local Open Scope Z_scope.

(* ===================================================================== *)
(** * Part I. Definitions                                                 *)
(* ===================================================================== *)

(** ** Python strings *)

Abbreviation pystr := (list N).

Definition NL : N := 10%N.          (* line feed *)
Definition SP : N := 32%N.          (* space *)
Definition HASH : N := 35%N.        (* # *)
Definition HYPHEN : N := 45%N.      (* - *)
Definition NB_HYPHEN : N := 8209%N. (* U+2011 *)
Definition EN_DASH : N := 8211%N.   (* U+2013 *)
Definition EM_DASH : N := 8212%N.   (* U+2014 *)
Definition ELLIPSIS : N := 8230%N.  (* U+2026 *)

(** An ASCII literal as a Python string. *)
Definition str (x : string) : pystr :=
  map (fun a => N.of_nat (nat_of_ascii a)) (list_ascii_of_string x).

(** [str.isspace] on one code point: the code points CPython classifies as
    whitespace, which are the ones [str.strip()] removes. *)
Definition py_isspace (c : N) : bool :=
  ((9 <=? c) && (c <=? 13) || (28 <=? c) && (c <=? 32)
   || (c =? 133) || (c =? 160) || (c =? 5760)
   || (8192 <=? c) && (c <=? 8202)
   || (c =? 8232) || (c =? 8233) || (c =? 8239) || (c =? 8287)
   || (c =? 12288))%N.

(** [s.lstrip()] *)
Fixpoint lstrip (s : pystr) : pystr :=
  match s with
  | [] => []
  | c :: s' => if py_isspace c then lstrip s' else s
  end.

(** [s.rstrip()] *)
Fixpoint rstrip (s : pystr) : pystr :=
  match s with
  | [] => []
  | c :: s' =>
      match rstrip s' with
      | [] => if py_isspace c then [] else [c]
      | r => c :: r
      end
  end.

(** [s.strip()] *)
Definition strip (s : pystr) : pystr := rstrip (lstrip s).

(** A string "starts clean" when it is empty or begins with a non-space. *)
Definition head_clean (s : pystr) : Prop :=
  match s with [] => True | c :: _ => py_isspace c = false end.

(** A string "ends clean" when it is empty or ends with a non-space. *)
Definition last_clean (s : pystr) : Prop :=
  match last s with None => True | Some c => py_isspace c = false end.

(** [s[:n]] for an integer [n] of either sign. *)
Definition slice_to (n : Z) (s : pystr) : pystr :=
  if 0 <=? n then take (Z.to_nat n) s
  else take (length s - Z.to_nat (- n))%nat s.

(** [len(s)] *)
Definition len (s : pystr) : Z := Z.of_nat (length s).

(** ** draft.py: [_truncate] *)

(** [text or ""] is the identity on a [str]; the callers pass [c.body],
    which [list_issue_comments] has already defaulted to a string. *)
Definition _truncate (text : pystr) (max_chars : Z) : pystr :=
  let text := strip text in
  if len text <=? max_chars then text
  else rstrip (slice_to (max_chars - 1) text) ++ [ELLIPSIS].


(** ** Values, exceptions and results *)

(** A decoded JSON value, which is also how the client's dynamically typed
    fields are represented ([JNull] is Python's [None]).  An object is kept
    as its key/value pairs; a lookup takes the first pair with the key. *)
#[warnings="-register-all"]
Inductive json : Type :=
| JNull
| JBool (b : bool)
| JNum (n : Z)
| JStr (s : pystr)
| JArr (items : list json)
| JObj (fields : list (pystr * json)).

(** The built-in exceptions the client code can run into. *)
Inductive builtin_error : Type :=
| KeyError (key : json)
| IndexError
| TypeError (culprit : json)
| AttributeError (culprit : json)
| ValueError.

(** Everything the modelled code can raise; all are subclasses of
    [Exception].  [HTTPError] stands for the transport exceptions of the
    HTTP library, which [graphql] lets through. *)
Inductive exn : Type :=
| LinearAPIError (msg : pystr) (errors : json)
| HTTPError (msg : pystr)
| Builtin (e : builtin_error).

Inductive result (A : Type) : Type :=
| Ok (a : A)
| Raise (e : exn).
Arguments Ok {A} a.
Arguments Raise {A} e.

Definition rbind {A B} (r : result A) (k : A -> result B) : result B :=
  match r with Ok a => k a | Raise e => Raise e end.

(** ** models.py *)

Module Cycle.
Record t : Type := mk {
  id : pystr;
  name : option pystr;
  number : option Z;
  starts_at : Z;
  ends_at : Z
}.
End Cycle.

Module IssueHistory.
Record t : Type := mk {
  id : pystr;
  created_at : Z;
  type : option pystr;
  from_state : option pystr;
  to_state : option pystr
}.
End IssueHistory.

(** ** Built-ins used by draft.py *)

(** [sorted(l, key=key)]: a stable sort, smallest key first. *)
Fixpoint insert_by {A} (key : A -> Z) (x : A) (l : list A) : list A :=
  match l with
  | [] => [x]
  | y :: l' => if key x <=? key y then x :: l else y :: insert_by key x l'
  end.

Definition sorted_by {A} (key : A -> Z) (l : list A) : list A :=
  foldr (insert_by key) [] l.

(** Ascending by key, the order [sorted] establishes. *)
Definition ascending {A} (key : A -> Z) (l : list A) : Prop :=
  StronglySorted (fun a b => key a <= key b) l.

(** [next((c for c in l if p(c)), None)] *)
Definition py_next {A} (p : A -> bool) (l : list A) : option A := List.find p l.

(** [min(l, key=key)]: the first element with the smallest key. *)
Fixpoint min_from {A} (key : A -> Z) (best : A) (l : list A) : A :=
  match l with
  | [] => best
  | y :: l' => min_from key (if key y <? key best then y else best) l'
  end.

Definition py_min {A} (key : A -> Z) (l : list A) : result A :=
  match l with
  | [] => Raise (Builtin ValueError)
  | x :: l' => Ok (min_from key x l')
  end.

(** [max(l, key=key)]: the first element with the largest key. *)
Fixpoint max_from {A} (key : A -> Z) (best : A) (l : list A) : A :=
  match l with
  | [] => best
  | y :: l' => max_from key (if key best <? key y then y else best) l'
  end.

Definition py_max {A} (key : A -> Z) (l : list A) : result A :=
  match l with
  | [] => Raise (Builtin ValueError)
  | x :: l' => Ok (max_from key x l')
  end.

(** [max(l, default=None)] on instants. *)
Definition py_max_default (l : list Z) : option Z :=
  match l with
  | [] => None
  | x :: l' => Some (max_from (fun t => t) x l')
  end.

(** [x is not None] *)
Definition is_not_none {A} (x : option A) : bool :=
  match x with Some _ => true | None => false end.

(** Truth value of a list: non-empty. *)
Definition nonempty {A} (l : list A) : bool :=
  match l with [] => false | _ => true end.

(** ** draft.py: [_pick_cycles] *)

Definition contains_instant (now_utc : Z) (c : Cycle.t) : bool :=
  (Cycle.starts_at c <=? now_utc) && (now_utc <=? Cycle.ends_at c).

Definition msg_no_pair : pystr :=
  str "Could not determine current/previous cycle from available cycles.".

Definition msg_no_previous : pystr :=
  str "Found current cycle but no previous cycle was available.".

Definition _pick_cycles (cycles : list Cycle.t) (now_utc : Z)
  : result (Cycle.t * Cycle.t) :=
  let cycles_sorted := sorted_by Cycle.starts_at cycles in
  match py_next (contains_instant now_utc) cycles_sorted with
  | None =>
      let future := List.filter (fun c => now_utc <? Cycle.starts_at c) cycles_sorted in
      let past := List.filter (fun c => Cycle.ends_at c <=? now_utc) cycles_sorted in
      if nonempty future && nonempty past then
        rbind (py_min Cycle.starts_at future) (fun current =>
        rbind (py_max Cycle.ends_at past) (fun previous =>
        Ok (current, previous)))
      else Raise (LinearAPIError msg_no_pair (JArr []))
  | Some current =>
      let previous_candidates :=
        List.filter (fun c => Cycle.ends_at c <? Cycle.starts_at current) cycles_sorted in
      if negb (nonempty previous_candidates) then
        Raise (LinearAPIError msg_no_previous (JArr []))
      else
        rbind (py_max Cycle.ends_at previous_candidates) (fun previous =>
        Ok (current, previous))
  end.

(** Two sample cycles with a planning gap between them. *)
Definition sprint_1 : Cycle.t :=
  Cycle.mk (str "c1") (Some (str "Sprint 1")) (Some 1) 0 1000.
Definition sprint_2 : Cycle.t :=
  Cycle.mk (str "c2") (Some (str "Sprint 2")) (Some 2) 2000 3000.

(** ** draft.py: staleness of a current-cycle issue (in [draft_weekly_update]) *)

(** [timedelta(weeks=2)] in microseconds. *)
Definition two_weeks : Z := 14 * 24 * 60 * 60 * 1000000.

Definition last_state_change (history : list IssueHistory.t) : option Z :=
  let state_changes :=
    List.filter (fun h => is_not_none (IssueHistory.to_state h)) history in
  py_max_default (map IssueHistory.created_at state_changes).

Definition is_stale (now_utc : Z) (history : list IssueHistory.t) : bool :=
  let two_weeks_ago := now_utc - two_weeks in
  match last_state_change history with
  | Some t => t <? two_weeks_ago
  | None => false
  end.

(** ** More string built-ins *)

(** [s.replace(old, new)] for one-character [old] and [new]. *)
Definition replace_char (old new : N) (s : pystr) : pystr :=
  map (fun c => if (c =? old)%N then new else c) s.

(** [sep.join(parts)] *)
Fixpoint join (sep : pystr) (parts : list pystr) : pystr :=
  match parts with
  | [] => []
  | p :: ps =>
      match ps with
      | [] => p
      | _ :: _ => p ++ sep ++ join sep ps
      end
  end.

(** The lines of a text: the pieces between line feeds, in order (one more
    than there are line feeds). *)
Fixpoint lines_of (s : pystr) : list pystr :=
  match s with
  | [] => [[]]
  | c :: s' =>
      if (c =? NL)%N then [] :: lines_of s'
      else match lines_of s' with
           | l :: ls => (c :: l) :: ls
           | [] => [[c]]
           end
  end.

(** [x or default] for an optional string: [None] and the empty string
    both give way to the default. *)
Definition or_else (x : option pystr) (default : pystr) : pystr :=
  match x with
  | Some (c :: s) => c :: s
  | _ => default
  end.

(** Truth value of an optional string. *)
Definition truthy (x : option pystr) : bool :=
  match x with
  | Some (_ :: _) => true
  | _ => false
  end.

(** ** The fact document, as far as rendering and routing read it *)

Module IssueFact.
Record t : Type := mk {
  key : option pystr;
  title : pystr;
  state : option pystr;
  assignee : option pystr
}.
End IssueFact.

Module ProjectFact.
Record t : Type := mk {
  id : pystr;
  name : pystr;
  url : option pystr;
  status : option pystr;
  last_week_issues : list IssueFact.t;   (* p["last_week"]["issues"] *)
  this_week_issues : list IssueFact.t    (* p["this_week"]["issues"] *)
}.
End ProjectFact.

Module Facts.
Record t : Type := mk {
  generated_at_utc : pystr;              (* ISO-8601 text *)
  team_name : pystr;                     (* facts["team"]["name"] *)
  projects : list ProjectFact.t
}.
End Facts.

(** ** draft.py: [_facts_to_markdown] *)

Section Renderer.
(** [_fmt]: the ISO text parsed, moved to Asia/Kolkata and printed by
    [strftime]; left to the date library. *)
Context (_fmt : pystr -> pystr).

(** [f"- {key}: {title} ({state}, {assignee})"] *)
Definition issue_line (i : IssueFact.t) : pystr :=
  let key := or_else (IssueFact.key i) (str "ISSUE") in
  let state := or_else (IssueFact.state i) (str "Unknown") in
  let assignee := or_else (IssueFact.assignee i) (str "Unassigned") in
  let title := IssueFact.title i in
  str "- " ++ key ++ str ": " ++ title ++ str " (" ++ state ++ str ", "
    ++ assignee ++ str ")".

(** The bullets of one window. *)
Definition issue_lines (issues : list IssueFact.t) : list pystr :=
  if negb (nonempty issues) then [str "- No updates"]
  else map issue_line issues.

(** The status line under a project heading. *)
Definition status_line (p : ProjectFact.t) : pystr :=
  let status := or_else (ProjectFact.status p) (str "Unknown") in
  match ProjectFact.url p with
  | Some (c :: u) =>
      str "*" ++ status ++ str "* " ++ [EM_DASH] ++ str " [Project Link]("
        ++ (c :: u) ++ str ")"
  | _ => str "*" ++ status ++ str "*"
  end.

(** The lines appended for one project after its heading. *)
Definition project_body_lines (p : ProjectFact.t) : list pystr :=
  [status_line p; []]
  ++ [str "**Last Week**"] ++ issue_lines (ProjectFact.last_week_issues p) ++ [[]]
  ++ [str "**This Week**"] ++ issue_lines (ProjectFact.this_week_issues p) ++ [[]].

(** The lines appended for one project. *)
Definition project_lines (p : ProjectFact.t) : list pystr :=
  (str "## " ++ ProjectFact.name p) :: project_body_lines p.

Definition header_lines (facts : Facts.t) : list pystr :=
  [str "# Weekly Update (" ++ Facts.team_name facts ++ str ")"; [];
   str "Generated: " ++ _fmt (Facts.generated_at_utc facts); []].

Definition _facts_to_markdown (facts : Facts.t) : pystr :=
  let lines := header_lines facts ++ concat (map project_lines (Facts.projects facts)) in
  rstrip (join [NL] lines) ++ [NL].
End Renderer.

(** ** cli.py: [_normalize_name] and [_parse_project_updates] *)

Definition _normalize_name (name : pystr) : pystr :=
  strip (replace_char EM_DASH HYPHEN
          (replace_char EN_DASH HYPHEN
            (replace_char NB_HYPHEN HYPHEN name))).

(** One routed update: the dict with keys project_id, project_name, body. *)
Module Update.
Record t : Type := mk {
  project_id : pystr;
  project_name : pystr;
  body : pystr
}.
End Update.

(** The normalized-name lookup built from the facts; a later project
    overwrites an earlier one under the same key. *)
Definition build_name_to_info (projects : list ProjectFact.t)
  : gmap (list N) (pystr * pystr) :=
  foldl (fun m p =>
           <[_normalize_name (ProjectFact.name p) :=
               (ProjectFact.id p, ProjectFact.name p)]> m)
        ∅ projects.

(** A line that the pattern [^## (.+?)$] matches, with the text its group
    captures: the line starts with two hashes and a space and goes on for at
    least one more character.  ([.] stops at a line feed only, and in
    multi-line mode [^] and [$] hold exactly at the ends of such lines.) *)
Definition heading_of (line : pystr) : option pystr :=
  match line with
  | h1 :: h2 :: sp :: c :: rest =>
      if ((h1 =? HASH) && (h2 =? HASH) && (sp =? SP))%N then Some (c :: rest)
      else None
  | _ => None
  end.

(** [re.split] at the heading lines.  [cur] is the text gathered since the
    last heading; a heading line closes it, contributes its captured group,
    and the text after it starts with the line feed that ends the heading
    line. *)
Fixpoint split_sections (cur line : pystr) (rest : list pystr) : list pystr :=
  match heading_of line with
  | Some h =>
      cur :: h ::
        match rest with
        | [] => [[]]
        | l :: rest' => split_sections [NL] l rest'
        end
  | None =>
      match rest with
      | [] => [cur ++ line]
      | l :: rest' => split_sections (cur ++ line ++ [NL]) l rest'
      end
  end.

(** [re.split(r"^## (.+?)$", markdown, flags=re.MULTILINE)] *)
Definition re_split_headings (markdown : pystr) : list pystr :=
  match lines_of markdown with
  | [] => [[]]
  | l :: rest => split_sections [] l rest
  end.

(** The loop [i = 1; while i < len(sections) - 1: ...; i += 2], run on the
    sections after the preamble. *)
Fixpoint route_sections (name_to_info : gmap (list N) (pystr * pystr))
    (sections : list pystr) : list Update.t :=
  match sections with
  | heading :: text :: rest =>
      let project_name_raw := strip heading in
      let project_name_normalized := _normalize_name project_name_raw in
      let content := strip text in
      match name_to_info !! project_name_normalized with
      | Some (project_id, original_name) =>
          if nonempty content
          then Update.mk project_id original_name content
                 :: route_sections name_to_info rest
          else route_sections name_to_info rest
      | None => route_sections name_to_info rest
      end
  | _ => []
  end.

Definition _parse_project_updates (markdown : pystr) (facts : Facts.t)
  : list Update.t :=
  let name_to_info := build_name_to_info (Facts.projects facts) in
  let sections := re_split_headings markdown in
  route_sections name_to_info (tail sections).

(** ** The router's loop as a computation on pairs (used in the proofs) *)

(** The pairs [(sections[i], sections[i+1])] the loop visits, given the
    sections after the preamble. *)
Fixpoint heading_body_pairs (sections : list pystr) : list (pystr * pystr) :=
  match sections with
  | heading :: text :: rest => (heading, text) :: heading_body_pairs rest
  | _ => []
  end.

(** What [name_to_info.get] finds for a heading: the last project whose
    normalized name is the normalized heading. *)
Definition matching_project (projects : list ProjectFact.t) (heading : pystr)
  : option ProjectFact.t :=
  List.find
    (fun p => bool_decide (_normalize_name (ProjectFact.name p) = _normalize_name heading))
    (rev projects).

(** One turn of the loop. *)
Definition route_pair (projects : list ProjectFact.t) (hb : pystr * pystr)
  : option Update.t :=
  match matching_project projects (fst hb) with
  | Some p =>
      if nonempty (strip (snd hb))
      then Some (Update.mk (ProjectFact.id p) (ProjectFact.name p) (strip (snd hb)))
      else None
  | None => None
  end.

(** ** The router as the specification words it

    Nothing below is taken from the code of the router: the document is cut
    into lines, a scanner with the two states PREAMBLE and IN_SECTION walks
    over them, and headings are matched after collapsing the dash characters
    and trimming. *)



















(** ** Well-formed fact documents and the round trip *)

(** A text without a line feed. *)
Definition single_line (s : pystr) : Prop := ~ In NL s.

Definition single_line_opt (x : option pystr) : Prop :=
  match x with Some s => single_line s | None => True end.

Definition issue_single_line (i : IssueFact.t) : Prop :=
  single_line_opt (IssueFact.key i) /\ single_line (IssueFact.title i) /\
  single_line_opt (IssueFact.state i) /\ single_line_opt (IssueFact.assignee i).

(** A project whose rendered fields hold no line feed and whose name is not
    empty. *)
Definition project_single_line (p : ProjectFact.t) : Prop :=
  ProjectFact.name p <> [] /\
  single_line (ProjectFact.name p) /\
  single_line_opt (ProjectFact.url p) /\
  single_line_opt (ProjectFact.status p) /\
  Forall issue_single_line (ProjectFact.last_week_issues p) /\
  Forall issue_single_line (ProjectFact.this_week_issues p).

(** The sections [re.split] finds in the rendering of a list of projects,
    after the preamble: each name, followed by the text up to the next
    heading or the end. *)
Definition flat_lines (ls : list pystr) : pystr :=
  concat (map (fun l => l ++ [NL]) ls).

Fixpoint rendered_sections (ps : list ProjectFact.t) : list pystr :=
  match ps with
  | [] => []
  | p :: ps' =>
      ProjectFact.name p ::
      match ps' with
      | [] => [[NL] ++ join [NL] (project_body_lines p)]
      | _ :: _ => ([NL] ++ flat_lines (project_body_lines p)) :: rendered_sections ps'
      end
  end.

(** What the round-trip claim asks of one fact document: each project with
    issues in a window comes back as exactly one update keyed by its id. *)
Definition recovers_each_project (_fmt : pystr -> pystr) (facts : Facts.t) : Prop :=
  forall p, In p (Facts.projects facts) ->
    (ProjectFact.last_week_issues p <> [] \/ ProjectFact.this_week_issues p <> []) ->
    length (List.filter
              (fun u => bool_decide (Update.project_id u = ProjectFact.id p))
              (_parse_project_updates (_facts_to_markdown _fmt facts) facts)) = 1%nat.

(** Sample documents. *)
Definition sample_issue : IssueFact.t :=
  IssueFact.mk (Some (str "ENG-1")) (str "Fix login") (Some (str "Done")) None.
Definition apollo : ProjectFact.t :=
  ProjectFact.mk (str "p1") (str "Apollo") (Some (str "https://linear.app/p1"))
                 (Some (str "QA")) [sample_issue] [].
Definition zeus : ProjectFact.t :=
  ProjectFact.mk (str "p2") (str "Zeus") None None [] [sample_issue].
Definition apollo_again : ProjectFact.t :=
  ProjectFact.mk (str "p3") (str "Apollo") None (Some (str "Design"))
                 [sample_issue] [sample_issue].
Definition sample_fmt (iso : pystr) : pystr := str "2024-01-01 05:30 IST".
Definition sample_facts : Facts.t :=
  Facts.mk (str "2024-01-01T00:00:00+00:00") (str "Core") [apollo; zeus].
Definition clashing_facts : Facts.t :=
  Facts.mk (str "2024-01-01T00:00:00+00:00") (str "Core") [apollo; apollo_again].

(** ** linear_client.py: dynamic values *)

(** Truth value of a value. *)
Definition py_truthy (v : json) : bool :=
  match v with
  | JNull => false
  | JBool b => b
  | JNum n => negb (n =? 0)
  | JStr s => nonempty s
  | JArr items => nonempty items
  | JObj fields => nonempty fields
  end.

(** [x or default] *)
Definition py_or (x default : json) : json :=
  if py_truthy x then x else default.

(** The entry of an object under a key. *)
Fixpoint assoc (k : pystr) (fields : list (pystr * json)) : option json :=
  match fields with
  | [] => None
  | (k', v) :: rest => if bool_decide (k' = k) then Some v else assoc k rest
  end.

(** [v[k]] for a string key: [KeyError] on an object without the key,
    [TypeError] on anything that is not an object. *)
Definition py_getitem (v : json) (k : pystr) : result json :=
  match v with
  | JObj fields =>
      match assoc k fields with
      | Some x => Ok x
      | None => Raise (Builtin (KeyError (JStr k)))
      end
  | _ => Raise (Builtin (TypeError v))
  end.

(** [v[0]] *)
Definition py_getitem_0 (v : json) : result json :=
  match v with
  | JArr (x :: _) => Ok x
  | JArr [] => Raise (Builtin IndexError)
  | JStr (c :: _) => Ok (JStr [c])
  | JStr [] => Raise (Builtin IndexError)
  | JObj _ => Raise (Builtin (KeyError (JNum 0)))
  | _ => Raise (Builtin (TypeError v))
  end.

(** [v.get(k)] and [v.get(k, default)]: only an object has [get]. *)
Definition py_get_default (v : json) (k : pystr) (default : json) : result json :=
  match v with
  | JObj fields =>
      match assoc k fields with
      | Some x => Ok x
      | None => Ok default
      end
  | _ => Raise (Builtin (AttributeError v))
  end.

Definition py_get (v : json) (k : pystr) : result json :=
  py_get_default v k JNull.

(** Whether [needle] occurs in [s] as a substring. *)
Fixpoint is_prefix (needle s : pystr) : bool :=
  match needle, s with
  | [], _ => true
  | _ :: _, [] => false
  | a :: needle', b :: s' => (a =? b)%N && is_prefix needle' s'
  end.

Fixpoint is_substring (needle s : pystr) : bool :=
  is_prefix needle s ||
  match s with
  | [] => false
  | _ :: s' => is_substring needle s'
  end.

(** [k in v] for a string [k]: a key of an object, an element of a list, a
    substring of a string; anything else is not iterable. *)
Definition py_contains (k : pystr) (v : json) : result bool :=
  match v with
  | JObj fields => Ok (is_not_none (assoc k fields))
  | JArr items =>
      Ok (existsb (fun x => match x with
                            | JStr s => bool_decide (s = k)
                            | _ => false
                            end) items)
  | JStr s => Ok (is_substring k s)
  | _ => Raise (Builtin (TypeError v))
  end.

(** [for n in v]: the elements of a list, the keys of an object, the
    characters of a string. *)
Definition py_iter (v : json) : result (list json) :=
  match v with
  | JArr items => Ok items
  | JObj fields => Ok (map (fun kv => JStr (fst kv)) fields)
  | JStr s => Ok (map (fun c => JStr [c]) s)
  | _ => Raise (Builtin (TypeError v))
  end.

(** [str(n)] for an integer. *)
Definition py_str_int (n : Z) : pystr :=
  str (NilZero.string_of_int (Z.to_int n)).

(** ** linear_client.py: the HTTP exchange *)

Module Response.
Record t : Type := mk {
  status_code : Z;
  text : pystr;
  json_payload : option json   (* [None] when [resp.json()] raises *)
}.
End Response.

Module Project.
(** Annotated [str] and [str | None]; the constructor stores whatever the
    response holds. *)
Record t : Type := mk {
  id : json;
  name : json;
  url : json;
  status_name : json
}.
End Project.

Definition TEAMS_QUERY : pystr := Eval cbv in
  str "
            query Teams {
              teams {
                nodes { id name key }
              }
            }
            ".

Definition STATUS_QUERY : pystr := Eval cbv in
  str "
                query TeamProjects($teamId: String!, $first: Int!, $after: String) {
                  team(id: $teamId) {
                    projects(first: $first, after: $after) {
                      nodes { id name url status { name } }
                      pageInfo { hasNextPage endCursor }
                    }
                  }
                }
                ".

Definition PROJECT_STATUS_QUERY : pystr := Eval cbv in
  str "
                query TeamProjects($teamId: String!, $first: Int!, $after: String) {
                  team(id: $teamId) {
                    projects(first: $first, after: $after) {
                      nodes { id name url projectStatus { name } }
                      pageInfo { hasNextPage endCursor }
                    }
                  }
                }
                ".

Definition PROJECT_HEALTH_QUERY : pystr := Eval cbv in
  str "
        query ProjectHealth($projectId: String!) {
          project(id: $projectId) {
            id
            health
          }
        }
        ".

Definition PROJECT_UPDATE_MUTATION : pystr := Eval cbv in
  str "
        mutation CreateProjectUpdate($input: ProjectUpdateCreateInput!) {
          projectUpdateCreate(input: $input) {
            success
            projectUpdate {
              id
              url
            }
          }
        }
        ".

Section Client.
(** The service behind the endpoint: [client.post] answers a query and its
    variables with a response or a transport exception, and may change the
    state of the world. *)
Context {World : Type}.
Context (post : pystr -> json -> World -> result Response.t * World).
(** [str()] of a value that is not a string, and of a built-in exception:
    the interpreter's renderings. *)
Context (py_repr : json -> pystr).
Context (describe : builtin_error -> pystr).

(** A computation that talks to the service. *)
Definition M (A : Type) : Type := World -> result A * World.

Definition ret {A} (a : A) : M A := fun w => (Ok a, w).
Definition raise {A} (e : exn) : M A := fun w => (Raise e, w).
Definition lift {A} (r : result A) : M A := fun w => (r, w).
Definition bind {A B} (m : M A) (k : A -> M B) : M B :=
  fun w => match m w with
           | (Ok a, w') => k a w'
           | (Raise e, w') => (Raise e, w')
           end.

(** [str(v)] *)
Definition py_str (v : json) : pystr :=
  match v with
  | JStr s => s
  | _ => py_repr v
  end.

(** [str(e)] for an exception. *)
Definition str_exn (e : exn) : pystr :=
  match e with
  | LinearAPIError msg _ => msg
  | HTTPError msg => msg
  | Builtin b => describe b
  end.

(** [payload["errors"][0].get("message") or "Linear GraphQL error"] *)
Definition first_error_message (payload : json) : result json :=
  rbind (py_getitem payload (str "errors")) (fun errors =>
  rbind (py_getitem_0 errors) (fun first =>
  rbind (py_get first (str "message")) (fun m =>
  Ok (py_or m (JStr (str "Linear GraphQL error")))))).

(** [graphql] after the response has arrived. *)
Definition graphql_check (resp : Response.t) : result json :=
  let payload := default JNull (Response.json_payload resp) in
  let status := Response.status_code resp in
  if 400 <=? status then
    rbind (if py_truthy payload
           then rbind (py_get payload (str "errors")) (fun e => Ok (py_truthy e))
           else Ok false) (fun has_errors =>
    if has_errors : bool then
      rbind (first_error_message payload) (fun msg =>
      rbind (py_getitem payload (str "errors")) (fun errors =>
      Raise (LinearAPIError
               (str "Linear GraphQL error (HTTP " ++ py_str_int status ++ str "): "
                  ++ py_str msg)
               (py_or errors (JArr [])))))
    else
      let body := strip (slice_to 500 (Response.text resp)) in
      Raise (LinearAPIError
               (str "Linear HTTP " ++ py_str_int status ++ str ": "
                  ++ (if nonempty body then body else str "No response body"))
               (JArr [])))
  else
    match payload with
    | JNull => Raise (LinearAPIError (str "Linear response was not valid JSON.") (JArr []))
    | _ =>
        rbind (rbind (py_contains (str "errors") payload) (fun present =>
               if present : bool
               then rbind (py_getitem payload (str "errors")) (fun e => Ok (py_truthy e))
               else Ok false)) (fun has_errors =>
        if has_errors : bool then
          rbind (first_error_message payload) (fun msg =>
          rbind (py_getitem payload (str "errors")) (fun errors =>
          Raise (LinearAPIError (py_str msg) (py_or errors (JArr [])))))
        else
          rbind (py_get payload (str "data")) (fun data =>
          match data with
          | JNull =>
              rbind (py_get payload (str "errors")) (fun errors =>
              Raise (LinearAPIError (str "Missing 'data' in Linear response")
                                    (py_or errors (JArr []))))
          | _ => Ok data
          end))
    end.

(** [LinearClient.graphql] *)
Definition graphql (query : pystr) (variables : json) : M json :=
  bind (post query (py_or variables (JObj []))) (fun resp =>
  lift (graphql_check resp)).

(** [LinearClient.get_project_health]: the [try] covers the call and the two
    [get]s; only [LinearAPIError] is caught. *)
Definition get_project_health (project_id : pystr) : M json :=
  fun w =>
    match bind (graphql PROJECT_HEALTH_QUERY (JObj [(str "projectId", JStr project_id)]))
               (fun data =>
                  lift (rbind (py_get_default data (str "project") (JObj [])) (fun project =>
                        py_get project (str "health")))) w with
    | (Raise (LinearAPIError _ _), w') => (Ok JNull, w')
    | other => other
    end.

(** [LinearClient.create_project_update] *)
Definition create_project_update (project_id body : pystr) (health : json) : M json :=
  let input_data :=
    [(str "projectId", JStr project_id); (str "body", JStr body)]
    ++ (if py_truthy health then [(str "health", health)] else []) in
  bind (graphql PROJECT_UPDATE_MUTATION (JObj [(str "input", JObj input_data)])) (fun data =>
  lift (py_getitem data (str "projectUpdateCreate"))).

(** The [Project] built from one node of a page. *)
Definition project_of_node (field_name : pystr) (n : json) : result Project.t :=
  rbind (py_get n field_name) (fun s =>
  let status_obj := py_or s (JObj []) in
  rbind (py_getitem n (str "id")) (fun id =>
  rbind (py_getitem n (str "name")) (fun name =>
  rbind (py_get n (str "url")) (fun url =>
  rbind (match status_obj with
         | JObj _ => py_get status_obj (str "name")
         | _ => Ok JNull
         end) (fun status_name =>
  Ok (Project.mk id name url status_name)))))).

(** [for n in conn["nodes"]: projects.append(...)] *)
Fixpoint append_projects (field_name : pystr) (projects : list Project.t)
    (nodes : list json) : result (list Project.t) :=
  match nodes with
  | [] => Ok projects
  | n :: nodes' =>
      rbind (project_of_node field_name n) (fun p =>
      append_projects field_name (projects ++ [p]) nodes')
  end.

(** [for _ in range(max_pages): ...] for one query shape. *)
Fixpoint project_pages (field_name query team_id : pystr) (first : Z)
    (pages_left : nat) (projects : list Project.t) (after : json)
  : M (list Project.t) :=
  match pages_left with
  | O => ret projects
  | S pages_left' =>
      bind (graphql query (JObj [(str "teamId", JStr team_id);
                                 (str "first", JNum first);
                                 (str "after", after)])) (fun data =>
      bind (lift (rbind (py_getitem data (str "team")) (fun team =>
                  py_getitem team (str "projects")))) (fun conn =>
      bind (lift (rbind (py_getitem conn (str "nodes")) py_iter)) (fun nodes =>
      bind (lift (append_projects field_name projects nodes)) (fun projects' =>
      bind (lift (py_getitem conn (str "pageInfo"))) (fun page =>
      bind (lift (py_getitem page (str "hasNextPage"))) (fun has_next =>
      if negb (py_truthy has_next) then ret projects'
      else
        bind (lift (py_getitem page (str "endCursor"))) (fun after' =>
        project_pages field_name query team_id first pages_left' projects' after')))))))
  end.

Definition msg_projects_failed : pystr :=
  str "Failed to query team projects (status field mismatch?): ".

(** [for field_name, query in queries: try: ... except Exception as e: ...] *)
Fixpoint try_queries (queries : list (pystr * pystr)) (last_err : option exn)
    (team_id : pystr) (first max_pages : Z) : M (list Project.t) :=
  match queries with
  | [] =>
      raise (LinearAPIError
               (msg_projects_failed ++
                  match last_err with Some e => str_exn e | None => str "None" end)
               (JArr []))
  | (field_name, query) :: rest =>
      fun w =>
        match project_pages field_name query team_id first (Z.to_nat max_pages) [] JNull w with
        | (Ok projects, w') => (Ok projects, w')
        | (Raise e, w') => try_queries rest (Some e) team_id first max_pages w'
        end
  end.

(** [LinearClient.list_team_projects] *)
Definition list_team_projects (team_id : pystr) (first max_pages : Z)
  : M (list Project.t) :=
  try_queries [(str "status", STATUS_QUERY);
               (str "projectStatus", PROJECT_STATUS_QUERY)]
              None team_id first max_pages.
End Client.

(** ** Sample services and well-formed pages *)

(** A scripted service: the world is the list of answers still to come, and
    each request takes the next one; with none left the connection fails. *)
Definition scripted (query : pystr) (variables : json)
    (w : list (result Response.t)) : result Response.t * list (result Response.t) :=
  match w with
  | [] => (Raise (HTTPError (str "connection refused")), [])
  | r :: w' => (r, w')
  end.

Definition sample_repr (v : json) : pystr := str "<value>".
Definition sample_describe (b : builtin_error) : pystr := str "<error>".

(** A response with status 200 whose body is the object with the given
    data. *)
Definition data_response (data : json) : Response.t :=
  Response.mk 200 [] (Some (JObj [(str "data", data)])).

(** The data of one page of team projects. *)
Definition page_data (nodes : list json) (has_next : json) (cursor : json) : json :=
  JObj [(str "team",
         JObj [(str "projects",
                JObj [(str "nodes", JArr nodes);
                      (str "pageInfo",
                       JObj [(str "hasNextPage", has_next);
                             (str "endCursor", cursor)])])])].

(** The variables of a page request. *)
Definition page_variables (team_id : pystr) (first : Z) (after : json) : json :=
  JObj [(str "teamId", JStr team_id); (str "first", JNum first); (str "after", after)].

(** A node that is an object with an id and a name. *)
Definition node_ok (n : json) : Prop :=
  exists fields id name,
    n = JObj fields /\ assoc (str "id") fields = Some id /\
    assoc (str "name") fields = Some name.

(** The project a well-formed node stands for, its status read from the
    member [field_name]. *)
Definition node_project (field_name : pystr) (n : json) : Project.t :=
  match n with
  | JObj fields =>
      Project.mk
        (default JNull (assoc (str "id") fields))
        (default JNull (assoc (str "name") fields))
        (default JNull (assoc (str "url") fields))
        match py_or (default JNull (assoc field_name fields)) (JObj []) with
        | JObj status => default JNull (assoc (str "name") status)
        | _ => JNull
        end
  | _ => Project.mk JNull JNull JNull JNull
  end.

Definition sample_node : json :=
  JObj [(str "id", JStr (str "p1")); (str "name", JStr (str "Apollo"));
        (str "url", JNull);
        (str "projectStatus", JObj [(str "name", JStr (str "QA"))])].

(** Sample exchanges. *)
Definition resp_500 : Response.t := Response.mk 500 (str "  upstream down ") None.
Definition resp_errors : Response.t :=
  Response.mk 200 []
    (Some (JObj [(str "data", JObj [(str "project", JNull)]);
                 (str "errors", JArr [JObj [(str "message", JStr (str "Entity not found"))]])])).
Definition health_variables : json := JObj [(str "projectId", JStr (str "p1"))].
Definition health_data (project : json) : Response.t :=
  data_response (JObj [(str "project", project)]).

(** The script of a service that answers with pages which all announce a
    further page. *)
Definition endless_pages (pages : list (list json * json)) : list (result Response.t) :=
  map (fun pg => Ok (data_response (page_data (fst pg) (JBool true) (snd pg)))) pages.

(** ** draft.py: [_pick_team] *)

Module Team.
Record t : Type := mk {
  id : pystr;
  key : option pystr;
  name : pystr
}.
End Team.

Section PickTeam.
(** [str.lower], left to the interpreter's Unicode tables. *)
Context (lower : pystr -> pystr).

(** [f'{t.name}({t.key or t.id})'] *)
Definition team_label (t : Team.t) : pystr :=
  Team.name t ++ str "(" ++ or_else (Team.key t) (Team.id t) ++ str ")".

Definition msg_team_id : pystr := str "LINEAR_TEAM_ID not found or not accessible: ".
Definition msg_team_key : pystr := str "LINEAR_TEAM_KEY not found or not accessible: ".
Definition msg_many_teams : pystr :=
  str "Multiple teams accessible; set LINEAR_TEAM_ID or LINEAR_TEAM_KEY. "
  ++ str "Accessible teams: ".

(** [_pick_team], from the teams [client.list_teams()] returned and the two
    selectors of the configuration. *)
Definition _pick_team (teams : list Team.t) (team_id team_key : option pystr)
  : result Team.t :=
  if truthy team_id then
    match py_next (fun t => bool_decide (Team.id t = or_else team_id [])) teams with
    | Some t => Ok t
    | None => Raise (LinearAPIError (msg_team_id ++ or_else team_id []) (JArr []))
    end
  else if truthy team_key then
    match py_next (fun t => bool_decide (lower (or_else (Team.key t) [])
                                         = lower (or_else team_key []))) teams with
    | Some t => Ok t
    | None => Raise (LinearAPIError (msg_team_key ++ or_else team_key []) (JArr []))
    end
  else
    match teams with
    | [t] => Ok t
    | _ => Raise (LinearAPIError
                    (msg_many_teams ++ join (str ", ") (map team_label teams))
                    (JArr []))
    end.
End PickTeam.

(** ** draft.py: the comment views of an issue (in [draft_weekly_update]) *)

Module Comment.
Record t : Type := mk {
  id : pystr;
  created_at : Z;
  body : pystr;
  author_name : option pystr
}.
End Comment.

(** The dict kept for a comment. *)
Module CommentFact.
Record t : Type := mk {
  created_at : pystr;
  author : option pystr;
  body : pystr
}.
End CommentFact.

(** [l[-n:]] for a positive [n]: the last [n] elements, or all of them. *)
Definition last_n {A} (n : nat) (l : list A) : list A :=
  drop (length l - n) l.

(** [sorted(l, key=key, reverse=True)]: largest key first, equal keys in
    their original order. *)
Fixpoint insert_desc {A} (key : A -> Z) (x : A) (l : list A) : list A :=
  match l with
  | [] => [x]
  | y :: l' => if key y <=? key x then x :: l else y :: insert_desc key x l'
  end.

Definition sorted_desc {A} (key : A -> Z) (l : list A) : list A :=
  foldr (insert_desc key) [] l.

Section CommentViews.
(** [datetime.isoformat] *)
Context (isoformat : Z -> pystr).

Definition comment_fact (c : Comment.t) : CommentFact.t :=
  CommentFact.mk (isoformat (Comment.created_at c)) (Comment.author_name c)
                 (_truncate (Comment.body c) 500).

Definition in_window (start finish : Z) (c : Comment.t) : bool :=
  (start <=? Comment.created_at c) && (Comment.created_at c <=? finish).

(** [comments_in_window[-5:]], the "comments" of an issue fact. *)
Definition window_comments (start finish : Z) (comments : list Comment.t)
  : list CommentFact.t :=
  let comments_in_window :=
    map comment_fact (List.filter (in_window start finish) comments) in
  last_n 5 comments_in_window.

(** [latest_comments] of a current-cycle issue. *)
Definition latest_comments (comments : list Comment.t) : list CommentFact.t :=
  map comment_fact (take 3 (sorted_desc Comment.created_at comments)).
End CommentViews.

(** ** openrouter_client.py: the cap on the facts embedded in the prompt
    (in [_build_prompt]) *)

Definition TRUNCATED_MARKER : pystr :=
  [NL; 226%N; 8364%N; 166%N] ++ str "(truncated)" ++ [NL].

Definition cap_raw (raw : pystr) : pystr :=
  if 160000 <? len raw then slice_to 159000 raw ++ TRUNCATED_MARKER else raw.

(** Whether a line is a heading line of the router's pattern. *)
Definition is_heading (line : pystr) : bool := is_not_none (heading_of line).

(** The text the renderer gives a project without issues, after the status
    line. *)
Definition no_updates_text : pystr :=
  [NL; NL] ++ str "**Last Week**" ++ [NL] ++ str "- No updates" ++ [NL; NL]
  ++ str "**This Week**" ++ [NL] ++ str "- No updates".

(** A project without issues, and a document that holds it. *)
Definition idle : ProjectFact.t :=
  ProjectFact.mk (str "p9") (str "Hermes") None (Some (str "PRD")) [] [].
Definition idle_facts : Facts.t :=
  Facts.mk (str "2024-01-01T00:00:00+00:00") (str "Core") [apollo; idle].

(** ** config.py: [load_config] *)

(** A [pathlib.Path], by the text it was built from. *)
Inductive path : Type := Path (s : pystr).

Module AppConfig.
Record t : Type := mk {
  linear_api_key : pystr;
  team_id : option pystr;
  team_key : option pystr;
  openrouter_api_key : option pystr;
  openrouter_model : pystr;
  openrouter_provider : option pystr;
  output_path : path
}.
End AppConfig.

(** [load_config] returns a configuration or raises
    [ValueError("Missing LINEAR_API_KEY")]. *)
Inductive config_result : Type :=
| Loaded (config : AppConfig.t)
| MissingLinearApiKey.

(** [os.getenv(name, "")] on the environment as [load_dotenv] leaves it. *)
Definition getenv (env : gmap (list N) (list N)) (name : pystr) : pystr :=
  default [] (env !! name).

(** [s.strip() or None] *)
Definition strip_or_none (s : pystr) : option pystr :=
  match strip s with
  | [] => None
  | c :: t => Some (c :: t)
  end.

(** [s.strip() or default] *)
Definition strip_or (s default : pystr) : pystr :=
  match strip s with
  | [] => default
  | c :: t => c :: t
  end.

Definition load_config (env : gmap (list N) (list N))
    (team_id team_key : option pystr) (output_path : option path) : config_result :=
  let linear_api_key := strip (getenv env (str "LINEAR_API_KEY")) in
  if negb (nonempty linear_api_key) then MissingLinearApiKey
  else
    let resolved_team_id :=
      strip_or_none (or_else team_id (or_else (env !! str "LINEAR_TEAM_ID") [])) in
    let resolved_team_key :=
      strip_or_none (or_else team_key (or_else (env !! str "LINEAR_TEAM_KEY") [])) in
    let openrouter_api_key := strip_or_none (getenv env (str "OPENROUTER_API_KEY")) in
    let openrouter_model :=
      strip_or (getenv env (str "OPENROUTER_MODEL")) (str "moonshotai/kimi-k2.5") in
    let openrouter_provider := strip_or_none (getenv env (str "OPENROUTER_PROVIDER")) in
    let resolved_output :=
      match output_path with
      | Some p => p
      | None => Path (strip_or (getenv env (str "OUTPUT_PATH"))
                               (str "updates/weekly_update.md"))
      end in
    Loaded (AppConfig.mk linear_api_key resolved_team_id resolved_team_key
                         openrouter_api_key openrouter_model openrouter_provider
                         resolved_output).

(** A text that is neither empty nor padded with whitespace. *)
Definition trimmed (s : pystr) : Prop := s <> [] /\ strip s = s.

Definition trimmed_opt (x : option pystr) : Prop :=
  match x with Some s => trimmed s | None => True end.

(** A document with a heading in en-dash spelling, an invented heading, a
    section without body and a trailing heading in em-dash spelling. *)
Definition alpha_beta : ProjectFact.t :=
  ProjectFact.mk (str "p1") (str "Alpha-Beta") None None [] [].
Definition dashed_facts : Facts.t :=
  Facts.mk (str "2024-01-01T00:00:00+00:00") (str "Core") [alpha_beta; zeus].
Definition dashed_document : pystr :=
  join [NL]
    [str "intro";
     str "## Alpha" ++ [EN_DASH] ++ str "Beta";
     str "  shipped  ";
     str "## Invented";
     str "text";
     str "## Zeus";
     [];
     str "## Alpha" ++ [EM_DASH] ++ str "Beta"].

(** One attempt of [list_team_projects]: the body of the [try] for one query
    shape, from an empty list and the first page. *)
Definition attempt {World : Type}
    (post : pystr -> json -> World -> result Response.t * World)
    (py_repr : json -> pystr)
    (field_name query team_id : pystr) (first max_pages : Z)
  : World -> result (list Project.t) * World :=
  project_pages post py_repr field_name query team_id first (Z.to_nat max_pages) [] JNull.

(** A service on which both query shapes fail, each in its own way. *)
Definition both_down : list (result Response.t) :=
  [Raise (HTTPError (str "first attempt refused"));
   Raise (HTTPError (str "second attempt timed out"))].

(** A sample history: one state change and one event without a to-state. *)
Definition moved_at (t : Z) : IssueHistory.t :=
  IssueHistory.mk (str "h1") t None (Some (str "Todo")) (Some (str "In Progress")).
Definition touched_at (t : Z) : IssueHistory.t :=
  IssueHistory.mk (str "h2") t None None None.

(* ===================================================================== *)
(** * Part II. Properties                                                 *)
(* ===================================================================== *)

(** ** Stripping *)

Lemma ellipsis_not_space : py_isspace ELLIPSIS = false.
Proof. reflexivity. Qed.

Lemma lstrip_length s : (length (lstrip s) <= length s)%nat.
Proof. induction s as [|c s IH]; simpl; [lia|]. destruct (py_isspace c); simpl; lia. Qed.

Lemma rstrip_length s : (length (rstrip s) <= length s)%nat.
Proof.
  induction s as [|c s IH]; simpl; [lia|].
  destruct (rstrip s) eqn:E; [destruct (py_isspace c)|]; simpl in *; lia.
Qed.

Lemma lstrip_head_clean s : head_clean (lstrip s).
Proof.
  induction s as [|c s IH]; simpl; [done|].
  destruct (py_isspace c) eqn:E; [done|]. exact E.
Qed.

Lemma lstrip_id s : head_clean s -> lstrip s = s.
Proof. destruct s as [|c s]; simpl; [done|]. by intros ->. Qed.

Lemma rstrip_nil_iff s : rstrip s = [] <-> forallb py_isspace s = true.
Proof.
  induction s as [|c s IH]; simpl; [done|].
  destruct (rstrip s) eqn:E.
  - destruct (py_isspace c); simpl; [tauto|]. split; [done|]. done.
  - split; [done|]. intros H. apply andb_true_iff in H as [_ H].
    apply IH in H. done.
Qed.

Lemma rstrip_cons_clean c s :
  py_isspace c = false -> rstrip (c :: s) = c :: rstrip s.
Proof. intros H. simpl. rewrite H. by destruct (rstrip s). Qed.

Lemma rstrip_head_clean s : head_clean s -> head_clean (rstrip s).
Proof.
  destruct s as [|c s]; [done|]. intros H. simpl in H.
  by rewrite rstrip_cons_clean.
Qed.

Lemma rstrip_snoc_clean s c :
  py_isspace c = false -> rstrip (s ++ [c]) = s ++ [c].
Proof.
  intros H. induction s as [|d s IH]; simpl.
  - by rewrite H.
  - rewrite IH. by destruct s.
Qed.

Lemma rstrip_last_clean s : last_clean (rstrip s).
Proof.
  induction s as [|c s IH]; [done|]. simpl.
  destruct (rstrip s) as [|d r] eqn:E.
  - destruct (py_isspace c) eqn:Hc; [done|]. exact Hc.
  - unfold last_clean in *. by rewrite last_cons_cons.
Qed.

Lemma rstrip_id s : last_clean s -> rstrip s = s.
Proof.
  destruct s as [|c s' _] using rev_ind; [done|].
  unfold last_clean. rewrite last_snoc. apply rstrip_snoc_clean.
Qed.

Lemma rstrip_idemp s : rstrip (rstrip s) = rstrip s.
Proof. apply rstrip_id, rstrip_last_clean. Qed.

Lemma strip_head_clean s : head_clean (strip s).
Proof. apply rstrip_head_clean, lstrip_head_clean. Qed.

Lemma strip_last_clean s : last_clean (strip s).
Proof. apply rstrip_last_clean. Qed.

Lemma strip_id s : head_clean s -> last_clean s -> strip s = s.
Proof. intros H1 H2. unfold strip. rewrite lstrip_id by done. by apply rstrip_id. Qed.

Lemma strip_idemp s : strip (strip s) = strip s.
Proof. apply strip_id; [apply strip_head_clean | apply strip_last_clean]. Qed.

Lemma strip_length s : (length (strip s) <= length s)%nat.
Proof.
  unfold strip. pose proof (rstrip_length (lstrip s)). pose proof (lstrip_length s). lia.
Qed.

(** ** [_truncate] *)

Lemma truncate_short s m : len (strip s) <= m -> _truncate s m = strip s.
Proof. intros H. unfold _truncate. apply Z.leb_le in H. by rewrite H. Qed.

Lemma truncate_long s m :
  m < len (strip s) ->
  _truncate s m = rstrip (slice_to (m - 1) (strip s)) ++ [ELLIPSIS].
Proof. intros H. unfold _truncate. apply Z.leb_gt in H. by rewrite H. Qed.

Lemma slice_to_499 s : slice_to (500 - 1) s = take 499 s.
Proof. reflexivity. Qed.

Lemma take_head_clean n s : head_clean s -> head_clean (take n s).
Proof. destruct s, n; done. Qed.

Lemma truncate_500_length s : (length (_truncate s 500) <= 500)%nat.
Proof.
  destruct (Z_le_gt_dec (len (strip s)) 500) as [H|H].
  - rewrite truncate_short by done. unfold len in H. lia.
  - rewrite truncate_long by lia. rewrite slice_to_499, length_app. simpl.
    pose proof (rstrip_length (take 499 (strip s))).
    rewrite length_take in H0. lia.
Qed.

Lemma truncate_500_clean s : strip (_truncate s 500) = _truncate s 500.
Proof.
  destruct (Z_le_gt_dec (len (strip s)) 500) as [H|H].
  - rewrite truncate_short by done. apply strip_idemp.
  - rewrite truncate_long by lia. rewrite slice_to_499.
    apply strip_id.
    + pose proof (strip_head_clean s) as Hh.
      destruct (strip s) as [|c t]; [unfold len in H; simpl in H; lia|].
      simpl in Hh. change (take 499 (c :: t)) with (c :: take 498 t).
      by rewrite rstrip_cons_clean.
    + unfold last_clean. by rewrite last_snoc.
Qed.

(** C10. For every input string, [_truncate] with limit 500 returns at most
    500 characters, and truncating its own output changes nothing. *)
Theorem truncate_500_bounded_idempotent (s : pystr) :
  len (_truncate s 500) <= 500 /\
  _truncate (_truncate s 500) 500 = _truncate s 500.
Proof.
  pose proof (truncate_500_length s) as Hl. split.
  - unfold len. lia.
  - rewrite truncate_short; rewrite truncate_500_clean; [done|]. unfold len. lia.
Qed.

(** C5 as stated fails: a 501-character body whose 499th character is a
    space comes back one character short, and the ellipsis follows the first
    498 characters only. *)
Lemma truncate_501_counterexample :
  let body := replicate 498 97%N ++ [SP; 98%N; 98%N] in
  len body = 501 /\
  len (_truncate body 500) <> 500 /\
  _truncate body 500 <> take 499 body ++ [ELLIPSIS].
Proof. vm_compute. repeat split; discriminate. Qed.

(** C5 (amended). A body whose trimmed length is at most 500 is returned
    trimmed and otherwise unchanged; a longer one is cut to the first 499
    characters of the trimmed body, right-trimmed again, plus the ellipsis;
    and a 501-character body with no whitespace at either end and none at
    position 499 yields its first 499 characters plus the ellipsis, 500
    characters in all. *)
Theorem truncate_500_spec (s : pystr) :
  (len (strip s) <= 500 -> _truncate s 500 = strip s) /\
  (500 < len (strip s) ->
     _truncate s 500 = rstrip (take 499 (strip s)) ++ [ELLIPSIS]) /\
  (len s = 501 -> head_clean s -> last_clean s ->
   (forall c, s !! 498%nat = Some c -> py_isspace c = false) ->
     _truncate s 500 = take 499 s ++ [ELLIPSIS] /\
     len (_truncate s 500) = 500).
Proof.
  split; [apply truncate_short|]. split.
  - intros H. by rewrite truncate_long.
  - intros Hl Hh Ht H498. unfold len in Hl.
    assert (Hs : strip s = s) by by apply strip_id.
    rewrite truncate_long by (rewrite Hs; unfold len; lia).
    rewrite Hs, slice_to_499.
    assert (Hr : rstrip (take 499 s) = take 499 s).
    { apply rstrip_id. unfold last_clean. rewrite last_lookup, length_take.
      replace (Init.Nat.pred (499 `min` length s)) with 498%nat by lia.
      rewrite lookup_take_lt by lia.
      destruct (s !! 498%nat) as [c|]; [by apply H498|done]. }
    rewrite Hr. split; [done|]. unfold len. rewrite length_app, length_take.
    cbn [length]. lia.
Qed.

Lemma truncate_500_spec_witness :
  let body := replicate 501 97%N in
  _truncate body 500 = take 499 body ++ [ELLIPSIS] /\
  len (_truncate body 500) = 500.
Proof.
  intros body.
  apply (proj2 (proj2 (truncate_500_spec body))).
  - reflexivity.
  - reflexivity.
  - reflexivity.
  - intros c Hc. vm_compute in Hc. injection Hc as <-. reflexivity.
Defined.

(** ** Sorting and extrema *)

Section Keyed.
Context {A : Type} (key : A -> Z).

Lemma insert_by_In x y l : In y (insert_by key x l) <-> y = x \/ In y l.
Proof.
  induction l as [|z l IH]; simpl; [intuition congruence|].
  destruct (key x <=? key z); simpl; [intuition congruence|].
  rewrite IH. intuition congruence.
Qed.

Lemma sorted_by_In y l : In y (sorted_by key l) <-> In y l.
Proof.
  induction l as [|x l IH]; simpl; [done|].
  rewrite insert_by_In, IH. intuition congruence.
Qed.

Lemma insert_by_ascending x l : ascending key l -> ascending key (insert_by key x l).
Proof.
  unfold ascending. induction 1 as [|z l Hs IH Hall]; simpl.
  - repeat constructor.
  - destruct (key x <=? key z) eqn:E.
    + apply Z.leb_le in E. constructor; [by constructor|].
      constructor; [done|]. eapply Forall_impl; [exact Hall|].
      intros a Ha. simpl in Ha. lia.
    + apply Z.leb_gt in E. constructor; [done|].
      apply List.Forall_forall. intros a Ha. apply insert_by_In in Ha as [->|Ha]; [lia|].
      rewrite List.Forall_forall in Hall. by apply Hall.
Qed.

Lemma sorted_by_ascending l : ascending key (sorted_by key l).
Proof.
  induction l as [|x l IH]; simpl; [constructor|]. by apply insert_by_ascending.
Qed.

(** On an ascending list, the first hit of a search has the least key
    among all hits. *)
Lemma find_ascending_least p l x :
  ascending key l -> List.find p l = Some x ->
  forall y, In y l -> p y = true -> key x <= key y.
Proof.
  unfold ascending. induction 1 as [|z l Hs IH Hall]; simpl; [done|].
  destruct (p z) eqn:Hz.
  - intros [= <-] y [<-|Hy] _; [lia|]. rewrite List.Forall_forall in Hall. by apply Hall.
  - intros Hf y [<-|Hy] Hp; [congruence|]. by apply IH.
Qed.

Lemma max_from_spec best l :
  let m := max_from key best l in
  (m = best \/ In m l) /\ key best <= key m /\ forall y, In y l -> key y <= key m.
Proof.
  revert best. induction l as [|y l IH]; intros best; simpl; [intuition lia|].
  destruct (IH (if key best <? key y then y else best)) as (Hin & Hb & Hall).
  destruct (key best <? key y) eqn:E;
    [apply Z.ltb_lt in E | apply Z.ltb_ge in E].
  - split; [intuition|]. split; [lia|]. intros z [<-|Hz]; [lia|by apply Hall].
  - split; [intuition|]. split; [lia|]. intros z [<-|Hz]; [lia|by apply Hall].
Qed.

Lemma min_from_spec best l :
  let m := min_from key best l in
  (m = best \/ In m l) /\ key m <= key best /\ forall y, In y l -> key m <= key y.
Proof.
  revert best. induction l as [|y l IH]; intros best; simpl; [intuition lia|].
  destruct (IH (if key y <? key best then y else best)) as (Hin & Hb & Hall).
  destruct (key y <? key best) eqn:E;
    [apply Z.ltb_lt in E | apply Z.ltb_ge in E].
  - split; [intuition|]. split; [lia|]. intros z [<-|Hz]; [lia|by apply Hall].
  - split; [intuition|]. split; [lia|]. intros z [<-|Hz]; [lia|by apply Hall].
Qed.

Lemma py_max_spec l :
  l <> [] ->
  exists m, py_max key l = Ok m /\ In m l /\ forall y, In y l -> key y <= key m.
Proof.
  destruct l as [|x l]; [done|]. intros _. simpl.
  destruct (max_from_spec x l) as (Hin & Hb & Hall).
  eexists. split; [done|]. split; [simpl; intuition|].
  intros y [<-|Hy]; [done|by apply Hall].
Qed.

Lemma py_min_spec l :
  l <> [] ->
  exists m, py_min key l = Ok m /\ In m l /\ forall y, In y l -> key m <= key y.
Proof.
  destruct l as [|x l]; [done|]. intros _. simpl.
  destruct (min_from_spec x l) as (Hin & Hb & Hall).
  eexists. split; [done|]. split; [simpl; intuition|].
  intros y [<-|Hy]; [done|by apply Hall].
Qed.
End Keyed.

(** ** [_pick_cycles] *)

Lemma nonempty_true {A} (l : list A) : nonempty l = true <-> l <> [].
Proof. by destruct l. Qed.

Lemma nonempty_false {A} (l : list A) : nonempty l = false <-> l = [].
Proof. by destruct l. Qed.

Lemma contains_instant_spec now c :
  contains_instant now c = true <->
  Cycle.starts_at c <= now /\ now <= Cycle.ends_at c.
Proof. unfold contains_instant. rewrite andb_true_iff, !Z.leb_le. tauto. Qed.

(** The search for the current cycle: the cycle found contains the
    reference instant and starts earliest among those that do; nothing is
    found exactly when no cycle contains it. *)
Lemma current_search cycles now :
  match py_next (contains_instant now) (sorted_by Cycle.starts_at cycles) with
  | Some current =>
      In current cycles /\ contains_instant now current = true /\
      forall c, In c cycles -> contains_instant now c = true ->
                Cycle.starts_at current <= Cycle.starts_at c
  | None => forall c, In c cycles -> contains_instant now c = false
  end.
Proof.
  unfold py_next.
  destruct (List.find _ _) as [cur|] eqn:Hf.
  - pose proof (find_some _ _ Hf) as [Hin Hc]. apply sorted_by_In in Hin.
    split; [done|]. split; [done|]. intros c Hc1 Hc2.
    eapply (find_ascending_least Cycle.starts_at); eauto using sorted_by_ascending.
    by apply sorted_by_In.
  - intros c Hc. eapply find_none in Hf; [exact Hf|]. by apply sorted_by_In.
Qed.

(** The previous cycle of a current cycle found by containment. *)
Lemma previous_search cycles now current :
  py_next (contains_instant now) (sorted_by Cycle.starts_at cycles) = Some current ->
  ((exists p, In p cycles /\ Cycle.ends_at p < Cycle.starts_at current) ->
   exists previous,
     _pick_cycles cycles now = Ok (current, previous) /\
     In previous cycles /\
     Cycle.ends_at previous < Cycle.starts_at current /\
     forall p, In p cycles -> Cycle.ends_at p < Cycle.starts_at current ->
               Cycle.ends_at p <= Cycle.ends_at previous) /\
  ((forall p, In p cycles -> Cycle.starts_at current <= Cycle.ends_at p) ->
   _pick_cycles cycles now = Raise (LinearAPIError msg_no_previous (JArr []))).
Proof.
  intros Hf. unfold _pick_cycles. rewrite Hf.
  set (cand := List.filter _ _).
  assert (Hcand : forall p, In p cand <->
            In p cycles /\ Cycle.ends_at p < Cycle.starts_at current).
  { intros p. unfold cand. rewrite filter_In, sorted_by_In, Z.ltb_lt. tauto. }
  split.
  - intros (p & Hp1 & Hp2).
    assert (Hne : cand <> []).
    { intros E. assert (Hin : In p cand) by (apply Hcand; tauto).
      rewrite E in Hin. destruct Hin. }
    apply nonempty_true in Hne as Hb. rewrite Hb. simpl.
    destruct (py_max_spec Cycle.ends_at cand Hne) as (m & -> & Hm & Hmax).
    exists m. simpl. apply Hcand in Hm as [Hm1 Hm2].
    repeat split; try done. intros q Hq1 Hq2. apply Hmax, Hcand. tauto.
  - intros Hnone.
    assert (E : cand = []).
    { destruct cand as [|q cand'] eqn:E; [done|].
      assert (Hq : In q (q :: cand')) by (left; done).
      apply Hcand in Hq as [Hq1 Hq2]. specialize (Hnone q Hq1). lia. }
    by rewrite E.
Qed.

(** C1. When some cycle's closed interval contains the reference instant,
    [_pick_cycles] takes as current a cycle that contains it (the one that
    starts earliest; the containing cycle itself when it is the only one),
    and as previous the cycle with the latest end among the cycles ending
    strictly before current's start; with no such cycle it raises. *)
Theorem pick_cycles_containing (cycles : list Cycle.t) (now : Z) (c : Cycle.t) :
  In c cycles ->
  Cycle.starts_at c <= now <= Cycle.ends_at c ->
  exists current,
    In current cycles /\
    Cycle.starts_at current <= now <= Cycle.ends_at current /\
    (forall c', In c' cycles -> Cycle.starts_at c' <= now <= Cycle.ends_at c' ->
                Cycle.starts_at current <= Cycle.starts_at c') /\
    ((forall c', In c' cycles -> Cycle.starts_at c' <= now <= Cycle.ends_at c' ->
                 c' = c) -> current = c) /\
    ((exists p, In p cycles /\ Cycle.ends_at p < Cycle.starts_at current) ->
     exists previous,
       _pick_cycles cycles now = Ok (current, previous) /\
       In previous cycles /\
       Cycle.ends_at previous < Cycle.starts_at current /\
       forall p, In p cycles -> Cycle.ends_at p < Cycle.starts_at current ->
                 Cycle.ends_at p <= Cycle.ends_at previous) /\
    ((forall p, In p cycles -> Cycle.starts_at current <= Cycle.ends_at p) ->
     _pick_cycles cycles now = Raise (LinearAPIError msg_no_previous (JArr []))).
Proof.
  intros Hin Hc. apply contains_instant_spec in Hc.
  pose proof (current_search cycles now) as Hs.
  destruct (py_next _ _) as [current|] eqn:Hf.
  - destruct Hs as (H1 & H2 & H3). exists current.
    split; [done|]. split; [by apply contains_instant_spec|].
    split; [intros c' ? ?; by apply H3, contains_instant_spec|].
    split; [intros Hu; apply Hu; [done|by apply contains_instant_spec]|].
    by apply previous_search.
  - rewrite (Hs c Hin) in Hc. discriminate.
Qed.

Lemma pick_cycles_containing_witness :
  exists current,
    In current [sprint_1; sprint_2] /\
    Cycle.starts_at current <= 2500 <= Cycle.ends_at current /\
    (forall c', In c' [sprint_1; sprint_2] ->
                Cycle.starts_at c' <= 2500 <= Cycle.ends_at c' ->
                Cycle.starts_at current <= Cycle.starts_at c') /\
    ((forall c', In c' [sprint_1; sprint_2] ->
                 Cycle.starts_at c' <= 2500 <= Cycle.ends_at c' ->
                 c' = sprint_2) -> current = sprint_2) /\
    ((exists p, In p [sprint_1; sprint_2] /\
                Cycle.ends_at p < Cycle.starts_at current) ->
     exists previous,
       _pick_cycles [sprint_1; sprint_2] 2500 = Ok (current, previous) /\
       In previous [sprint_1; sprint_2] /\
       Cycle.ends_at previous < Cycle.starts_at current /\
       forall p, In p [sprint_1; sprint_2] ->
                 Cycle.ends_at p < Cycle.starts_at current ->
                 Cycle.ends_at p <= Cycle.ends_at previous) /\
    ((forall p, In p [sprint_1; sprint_2] ->
                Cycle.starts_at current <= Cycle.ends_at p) ->
     _pick_cycles [sprint_1; sprint_2] 2500 =
       Raise (LinearAPIError msg_no_previous (JArr []))).
Proof.
  apply (pick_cycles_containing [sprint_1; sprint_2] 2500 sprint_2).
  - simpl. auto.
  - simpl. lia.
Defined.

(** The fallback of [_pick_cycles], taken when no cycle contains the
    reference instant. *)
Lemma gap_search cycles now :
  py_next (contains_instant now) (sorted_by Cycle.starts_at cycles) = None ->
  let future := List.filter (fun c => now <? Cycle.starts_at c) cycles in
  let past := List.filter (fun c => Cycle.ends_at c <=? now) cycles in
  (future <> [] /\ past <> [] ->
   exists current previous,
     _pick_cycles cycles now = Ok (current, previous) /\
     In current future /\
     (forall c, In c future -> Cycle.starts_at current <= Cycle.starts_at c) /\
     In previous past /\
     (forall c, In c past -> Cycle.ends_at c <= Cycle.ends_at previous)) /\
  (future = [] \/ past = [] ->
   _pick_cycles cycles now = Raise (LinearAPIError msg_no_pair (JArr []))).
Proof.
  intros Hf future past. unfold _pick_cycles. rewrite Hf.
  set (future' := List.filter _ (sorted_by _ _)).
  set (past' := List.filter (fun c => Cycle.ends_at c <=? now) (sorted_by _ _)).
  assert (Hfut : forall c, In c future' <-> In c future).
  { intros c. unfold future', future. rewrite !filter_In, sorted_by_In. tauto. }
  assert (Hpast : forall c, In c past' <-> In c past).
  { intros c. unfold past', past. rewrite !filter_In, sorted_by_In. tauto. }
  assert (Hnil : forall (l l' : list Cycle.t),
             (forall c, In c l' <-> In c l) -> (l' = [] <-> l = [])).
  { intros l l' H. split; intros E; subst.
    - destruct l as [|x l]; [done|]. destruct (proj2 (H x)); by left.
    - destruct l' as [|x l']; [done|]. destruct (proj1 (H x)); by left. }
  split.
  - intros [Hfne Hpne].
    assert (Hfne' : future' <> []) by (rewrite (Hnil _ _ Hfut); done).
    assert (Hpne' : past' <> []) by (rewrite (Hnil _ _ Hpast); done).
    rewrite (proj2 (nonempty_true _) Hfne'), (proj2 (nonempty_true _) Hpne').
    destruct (py_min_spec Cycle.starts_at future' Hfne') as (cur & -> & Hc1 & Hc2).
    destruct (py_max_spec Cycle.ends_at past' Hpne') as (prev & -> & Hp1 & Hp2).
    exists cur, prev. simpl. split; [done|].
    split; [by apply Hfut|]. split; [intros c Hc; by apply Hc2, Hfut|].
    split; [by apply Hpast|]. intros c Hc. by apply Hp2, Hpast.
  - intros [E|E].
    + apply (Hnil _ _ Hfut) in E. by rewrite E.
    + apply (Hnil _ _ Hpast) in E. rewrite E. by rewrite andb_false_r.
Qed.

(** C2. When no cycle contains the reference instant (cycles being
    well-formed, start before end), [_pick_cycles] works from the cycles
    that end strictly before now and those that start strictly after it:
    with both kinds present it returns the future cycle that starts earliest
    and the past cycle that ends latest; with either kind missing it
    raises. *)
Theorem pick_cycles_gap (cycles : list Cycle.t) (now : Z) :
  (forall c, In c cycles -> Cycle.starts_at c < Cycle.ends_at c) ->
  (forall c, In c cycles -> ~ (Cycle.starts_at c <= now <= Cycle.ends_at c)) ->
  let future := List.filter (fun c => now <? Cycle.starts_at c) cycles in
  let past := List.filter (fun c => Cycle.ends_at c <? now) cycles in
  (future <> [] /\ past <> [] ->
   exists current previous,
     _pick_cycles cycles now = Ok (current, previous) /\
     In current future /\
     (forall c, In c future -> Cycle.starts_at current <= Cycle.starts_at c) /\
     In previous past /\
     (forall c, In c past -> Cycle.ends_at c <= Cycle.ends_at previous)) /\
  (future = [] \/ past = [] ->
   _pick_cycles cycles now = Raise (LinearAPIError msg_no_pair (JArr []))).
Proof.
  intros Hwf Hnone future past.
  assert (Hpast : past = List.filter (fun c => Cycle.ends_at c <=? now) cycles).
  { unfold past. apply filter_ext_in. intros c Hc.
    specialize (Hwf c Hc). specialize (Hnone c Hc).
    destruct (Z.ltb_spec (Cycle.ends_at c) now), (Z.leb_spec (Cycle.ends_at c) now);
      try done; lia. }
  rewrite Hpast. apply gap_search.
  pose proof (current_search cycles now) as Hs.
  destruct (py_next _ _) as [cur|]; [|done].
  destruct Hs as (H1 & H2 & _). apply contains_instant_spec in H2.
  by destruct (Hnone cur H1).
Qed.

Lemma pick_cycles_gap_witness :
  let cycles := [sprint_2; sprint_1] in
  let future := List.filter (fun c => 1500 <? Cycle.starts_at c) cycles in
  let past := List.filter (fun c => Cycle.ends_at c <? 1500) cycles in
  (future <> [] /\ past <> [] ->
   exists current previous,
     _pick_cycles cycles 1500 = Ok (current, previous) /\
     In current future /\
     (forall c, In c future -> Cycle.starts_at current <= Cycle.starts_at c) /\
     In previous past /\
     (forall c, In c past -> Cycle.ends_at c <= Cycle.ends_at previous)) /\
  (future = [] \/ past = [] ->
   _pick_cycles cycles 1500 = Raise (LinearAPIError msg_no_pair (JArr []))).
Proof.
  apply (pick_cycles_gap [sprint_2; sprint_1] 1500).
  - intros c [<-|[<-|[]]]; simpl; lia.
  - intros c [<-|[<-|[]]]; simpl; lia.
Defined.

(** Whether some cycle ends strictly before a given one starts is decidable
    by inspecting the list. *)
Lemma classic_previous (cycles : list Cycle.t) (current : Cycle.t) :
  (exists p, In p cycles /\ Cycle.ends_at p < Cycle.starts_at current) \/
  (forall p, In p cycles -> Cycle.starts_at current <= Cycle.ends_at p).
Proof.
  induction cycles as [|q l IH]; [right; intros p []|].
  destruct (Z_lt_le_dec (Cycle.ends_at q) (Cycle.starts_at current)) as [H|H].
  - left. exists q. split; [by left|done].
  - destruct IH as [(p & Hp1 & Hp2)|IH].
    + left. exists p. split; [by right|done].
    + right. intros p [<-|Hp]; [done|by apply IH].
Qed.

(** C3. Whenever [_pick_cycles] returns a pair, through either branch, the
    previous cycle ends strictly before the current cycle starts.  (The
    well-formedness of the cycles is assumed as the data model states it;
    the proof does not need it.) *)
Theorem pick_cycles_previous_before_current
    (cycles : list Cycle.t) (now : Z) (current previous : Cycle.t) :
  (forall c, In c cycles -> Cycle.starts_at c < Cycle.ends_at c) ->
  _pick_cycles cycles now = Ok (current, previous) ->
  Cycle.ends_at previous < Cycle.starts_at current.
Proof.
  intros _ Hr.
  destruct (py_next (contains_instant now) (sorted_by Cycle.starts_at cycles))
    as [cur|] eqn:Hf.
  - destruct (previous_search cycles now cur Hf) as [HA HB].
    destruct (classic_previous cycles cur) as [Hex|Hno].
    + destruct (HA Hex) as (prev & E & _ & Hlt & _).
      rewrite E in Hr. by injection Hr as <- <-.
    + rewrite HB in Hr; [discriminate|]. exact Hno.
  - destruct (gap_search cycles now Hf) as [HA HB]. cbv zeta in HA, HB.
    destruct (List.filter (fun c => now <? Cycle.starts_at c) cycles) as [|f fs] eqn:Ef.
    { rewrite HB in Hr by auto. discriminate. }
    destruct (List.filter (fun c => Cycle.ends_at c <=? now) cycles) as [|q qs] eqn:Ep.
    { rewrite HB in Hr by auto. discriminate. }
    destruct HA as (cur & prev & E & Hc & _ & Hp & _); [done|].
    rewrite E in Hr. injection Hr as <- <-.
    rewrite <- Ef in Hc. rewrite <- Ep in Hp.
    apply filter_In in Hc as [_ Hc]. apply filter_In in Hp as [_ Hp].
    apply Z.ltb_lt in Hc. apply Z.leb_le in Hp. lia.
Qed.

Lemma pick_cycles_previous_before_current_witness :
  Cycle.ends_at sprint_1 < Cycle.starts_at sprint_2.
Proof.
  apply (pick_cycles_previous_before_current [sprint_2; sprint_1] 1500).
  - intros c [<-|[<-|[]]]; simpl; lia.
  - reflexivity.
Defined.

(** ** Staleness *)

Lemma py_max_default_spec (l : list Z) :
  match py_max_default l with
  | Some t => In t l /\ forall u, In u l -> u <= t
  | None => l = []
  end.
Proof.
  destruct l as [|x l]; [done|]. simpl.
  destruct (max_from_spec (fun t => t) x l) as (Hin & Hb & Hall).
  split; [intuition|]. intros u [<-|Hu]; [done|by apply Hall].
Qed.

Lemma last_state_change_spec (history : list IssueHistory.t) :
  match last_state_change history with
  | Some t =>
      (exists h, In h history /\ IssueHistory.to_state h <> None /\
                 IssueHistory.created_at h = t) /\
      (forall h, In h history -> IssueHistory.to_state h <> None ->
                 IssueHistory.created_at h <= t)
  | None => forall h, In h history -> IssueHistory.to_state h = None
  end.
Proof.
  unfold last_state_change.
  set (changes := List.filter _ history).
  assert (Hch : forall h, In h changes <->
                          In h history /\ IssueHistory.to_state h <> None).
  { intros h. unfold changes. rewrite filter_In.
    destruct (IssueHistory.to_state h); simpl; intuition congruence. }
  pose proof (py_max_default_spec (map IssueHistory.created_at changes)) as Hm.
  destruct (py_max_default _) as [t|].
  - destruct Hm as [Hin Hmax]. split.
    + apply in_map_iff in Hin as (h & <- & Hh). apply Hch in Hh as [? ?]. eauto.
    + intros h Hh1 Hh2. apply Hmax, in_map_iff. exists h. split; [done|].
      apply Hch. tauto.
  - intros h Hh. destruct (IssueHistory.to_state h) eqn:E; [|done].
    assert (Hin : In h changes) by (apply Hch; split; [done|congruence]).
    apply (in_map IssueHistory.created_at) in Hin. rewrite Hm in Hin. destruct Hin.
Qed.

(** C4. [last_state_change] is the latest creation instant among the
    history events that carry a to-state, and is absent when there are none;
    [is_stale] holds exactly when it exists and lies strictly before the
    reference instant minus 14 days, so a change made exactly 14 days
    earlier is not stale. *)
Theorem stale_iff_older_than_two_weeks (now : Z) (history : list IssueHistory.t) :
  (forall t, last_state_change history = Some t ->
     (exists h, In h history /\ IssueHistory.to_state h <> None /\
                IssueHistory.created_at h = t) /\
     (forall h, In h history -> IssueHistory.to_state h <> None ->
                IssueHistory.created_at h <= t)) /\
  (last_state_change history = None <->
     forall h, In h history -> IssueHistory.to_state h = None) /\
  (is_stale now history = true <->
     exists t, last_state_change history = Some t /\
               t < now - 14 * 86400 * 1000000) /\
  (last_state_change history = Some (now - 14 * 86400 * 1000000) ->
     is_stale now history = false).
Proof.
  pose proof (last_state_change_spec history) as Hs.
  unfold is_stale. change two_weeks with (14 * 86400 * 1000000).
  destruct (last_state_change history) as [t|].
  - destruct Hs as [(h & Hh1 & Hh2 & Hh3) Hmax].
    split; [by intros ? [= <-]; eauto|].
    split; [split; [done|]; intros H; by rewrite (H h Hh1) in Hh2|].
    split.
    + rewrite Z.ltb_lt. split; [eauto|]. by intros (? & [= <-] & ?).
    + intros [= ->]. apply Z.ltb_irrefl.
  - split; [done|]. split; [done|]. split; [|done].
    split; [done|]. by intros (? & ? & ?).
Qed.

Lemma stale_iff_older_than_two_weeks_witness :
  let now := 2000000000000 in
  let history := [touched_at 1999999999999; moved_at (now - 14 * 86400 * 1000000)] in
  is_stale now history = false.
Proof.
  intros now history.
  apply (proj2 (proj2 (proj2 (stale_iff_older_than_two_weeks now history)))).
  reflexivity.
Defined.

(** ** Name normalization *)

Lemma lstrip_map (f : N -> N) s :
  (forall c, py_isspace (f c) = py_isspace c) ->
  lstrip (map f s) = map f (lstrip s).
Proof.
  intros Hf. induction s as [|c s IH]; simpl; [done|].
  rewrite Hf. by destruct (py_isspace c).
Qed.

Lemma rstrip_map (f : N -> N) s :
  (forall c, py_isspace (f c) = py_isspace c) ->
  rstrip (map f s) = map f (rstrip s).
Proof.
  intros Hf. induction s as [|c s IH]; simpl; [done|].
  rewrite IH, Hf. destruct (rstrip s); simpl; [|done].
  by destruct (py_isspace c).
Qed.

Lemma strip_map (f : N -> N) s :
  (forall c, py_isspace (f c) = py_isspace c) ->
  strip (map f s) = map f (strip s).
Proof. intros Hf. unfold strip. by rewrite lstrip_map, rstrip_map. Qed.

(** The three replacements of [_normalize_name] as one map on characters. *)
Lemma normalize_as_map name :
  _normalize_name name =
  strip (map (fun c => if ((c =? NB_HYPHEN) || (c =? EN_DASH) || (c =? EM_DASH))%N
                       then HYPHEN else c) name).
Proof.
  unfold _normalize_name, replace_char. rewrite !map_map. f_equal.
  apply map_ext. intros c.
  destruct (N.eqb_spec c NB_HYPHEN) as [->|H1]; [done|].
  destruct (N.eqb_spec c EN_DASH) as [->|H2]; [done|].
  by destruct (N.eqb_spec c EM_DASH) as [->|H3].
Qed.

Lemma dash_map_keeps_space c :
  py_isspace (if ((c =? NB_HYPHEN) || (c =? EN_DASH) || (c =? EM_DASH))%N
              then HYPHEN else c) = py_isspace c.
Proof.
  destruct (N.eqb_spec c NB_HYPHEN) as [->|H1]; [done|].
  destruct (N.eqb_spec c EN_DASH) as [->|H2]; [done|].
  by destruct (N.eqb_spec c EM_DASH) as [->|H3].
Qed.

Lemma normalize_strip name : _normalize_name (strip name) = _normalize_name name.
Proof.
  rewrite !normalize_as_map.
  rewrite !(strip_map _ _ dash_map_keeps_space). by rewrite strip_idemp.
Qed.


(** ** The name lookup *)

Lemma find_app {A} (p : A -> bool) l1 l2 :
  List.find p (l1 ++ l2) =
  match List.find p l1 with Some x => Some x | None => List.find p l2 end.
Proof. induction l1 as [|x l1 IH]; simpl; [done|]. by destruct (p x). Qed.

Lemma build_name_to_info_lookup projects k :
  build_name_to_info projects !! k =
  (fun p => (ProjectFact.id p, ProjectFact.name p)) <$>
    List.find (fun p => bool_decide (_normalize_name (ProjectFact.name p) = k))
              (rev projects).
Proof.
  unfold build_name_to_info.
  enough (H : forall m : gmap (list N) (list N * list N),
    foldl (fun m p => <[_normalize_name (ProjectFact.name p) :=
                          (ProjectFact.id p, ProjectFact.name p)]> m) m projects !! k
    = match List.find (fun p => bool_decide (_normalize_name (ProjectFact.name p) = k))
                      (rev projects) with
      | Some p => Some (ProjectFact.id p, ProjectFact.name p)
      | None => m !! k
      end).
  { rewrite H. destruct (List.find _ _); [done|]. apply lookup_empty. }
  induction projects as [|p ps IH]; intros m; simpl; [done|].
  rewrite IH, find_app. destruct (List.find _ (rev ps)); [done|]. simpl.
  case_bool_decide as E.
  - rewrite E. apply lookup_insert_eq.
  - by rewrite lookup_insert_ne.
Qed.

Lemma matching_project_Some projects heading p :
  matching_project projects heading = Some p ->
  In p projects /\
  _normalize_name (ProjectFact.name p) = _normalize_name heading.
Proof.
  intros H. apply find_some in H as [Hin Hp].
  apply in_rev in Hin. by apply bool_decide_eq_true in Hp.
Qed.

Lemma matching_project_None projects heading :
  matching_project projects heading = None <->
  forall p, In p projects ->
            _normalize_name (ProjectFact.name p) <> _normalize_name heading.
Proof.
  unfold matching_project. split.
  - intros H p Hp. apply in_rev in Hp.
    apply (find_none _ _ H) in Hp. by apply bool_decide_eq_false in Hp.
  - intros H. destruct (List.find _ _) as [p|] eqn:E; [|done].
    apply find_some in E as [Hin Hp]. apply in_rev in Hin.
    apply bool_decide_eq_true in Hp. by destruct (H p Hin).
Qed.

(** ** The router *)

Lemma pairs_ind {A} (P : list A -> Prop) :
  P [] -> (forall x, P [x]) -> (forall x y l, P l -> P (x :: y :: l)) ->
  forall l, P l.
Proof.
  intros H0 H1 H2 l. enough (P l /\ forall x, P (x :: l)) by tauto.
  induction l as [|y l [IH1 IH2]]; [split; auto|]. split; [apply IH2|].
  intros x. by apply H2.
Qed.

Lemma route_sections_pairs projects sections :
  route_sections (build_name_to_info projects) sections =
  omap (route_pair projects) (heading_body_pairs sections).
Proof.
  induction sections as [| |h b rest IH] using pairs_ind; [done..|].
  cbn [route_sections heading_body_pairs omap list_omap].
  rewrite build_name_to_info_lookup, IH. unfold route_pair.
  cbn [fst snd]. unfold matching_project. rewrite <- (normalize_strip h).
  destruct (List.find _ _) as [p|]; simpl; [|done].
  by destruct (nonempty (strip b)).
Qed.


(** ** Lines, joins and sections *)

Lemma join_cons sep p q ps : join sep (p :: q :: ps) = p ++ sep ++ join sep (q :: ps).
Proof. done. Qed.

Lemma join_snoc sep ps p :
  ps <> [] -> join sep (ps ++ [p]) = join sep ps ++ sep ++ p.
Proof.
  induction ps as [|q ps IH]; [done|]. intros _.
  destruct ps as [|r ps]; [done|].
  change ((q :: r :: ps) ++ [p]) with (q :: r :: (ps ++ [p])).
  rewrite !join_cons. change (r :: ps ++ [p]) with ((r :: ps) ++ [p]).
  rewrite IH by done. by rewrite <- !app_assoc.
Qed.

Lemma flat_lines_join ls : ls <> [] -> flat_lines ls = join [NL] ls ++ [NL].
Proof.
  induction ls as [|l ls IH]; [done|]. intros _.
  change (flat_lines (l :: ls)) with ((l ++ [NL]) ++ flat_lines ls).
  destruct ls as [|l' ls]; [by rewrite app_nil_r|].
  rewrite IH by done. rewrite join_cons. by rewrite <- !app_assoc.
Qed.


Lemma lines_of_single l : single_line l -> lines_of l = [l].
Proof.
  unfold single_line. induction l as [|c l IH]; [done|]. intros H. simpl.
  destruct (N.eqb_spec c NL) as [->|Hc]; [destruct H; by left|].
  rewrite IH; [done|]. intros Hin. apply H. by right.
Qed.

Lemma lines_of_app l s :
  single_line l -> lines_of (l ++ NL :: s) = l :: lines_of s.
Proof.
  unfold single_line. induction l as [|c l IH]; [done|]. intros H. simpl.
  destruct (N.eqb_spec c NL) as [->|Hc]; [destruct H; by left|].
  rewrite IH; [done|]. intros Hin. apply H. by right.
Qed.

Lemma lines_of_join ls :
  ls <> [] -> Forall single_line ls -> lines_of (join [NL] ls) = ls.
Proof.
  induction ls as [|l ls IH]; [done|]. intros _ Hall.
  apply Forall_cons in Hall as [Hl Hls].
  destruct ls as [|l' ls]; [by apply lines_of_single|].
  rewrite join_cons.
  change ([NL] ++ join [NL] (l' :: ls)) with (NL :: join [NL] (l' :: ls)).
  rewrite lines_of_app by done. by rewrite IH.
Qed.

(** A run of lines that are not headings is gathered into the running
    text. *)
Lemma split_sections_run ls : forall cur l rest,
  heading_of l = None ->
  Forall (fun x => heading_of x = None) ls ->
  split_sections cur l (ls ++ rest) =
  match rest with
  | [] => [cur ++ join [NL] (l :: ls)]
  | r :: rest' => split_sections (cur ++ flat_lines (l :: ls)) r rest'
  end.
Proof.
  induction ls as [|x ls IH]; intros cur l rest Hl Hls.
  - simpl. destruct rest as [|r rest']; simpl; rewrite Hl; [done|].
    unfold flat_lines. simpl. by rewrite app_nil_r.
  - apply Forall_cons in Hls as [Hx Hls].
    change ((x :: ls) ++ rest) with (x :: (ls ++ rest)).
    cbn [split_sections]. rewrite Hl. rewrite IH by done.
    destruct rest as [|r rest'].
    + rewrite join_cons. by rewrite <- !app_assoc.
    + f_equal. unfold flat_lines. simpl. by rewrite <- !app_assoc.
Qed.

(** ** The shape of the rendered lines *)

Lemma single_line_bool s :
  forallb (fun c => negb (c =? NL)%N) s = true -> single_line s.
Proof.
  unfold single_line. induction s as [|c s IH]; simpl; [tauto|].
  intros H. apply andb_true_iff in H as [Hc Hs]. intros [->|Hin]; [done|].
  by apply IH.
Qed.

Lemma single_line_app a b : single_line a -> single_line b -> single_line (a ++ b).
Proof. unfold single_line. rewrite in_app_iff. tauto. Qed.

Lemma single_line_cons c s : c <> NL -> single_line s -> single_line (c :: s).
Proof. unfold single_line. simpl. intuition congruence. Qed.

Lemma single_line_or_else x d :
  single_line_opt x -> single_line d -> single_line (or_else x d).
Proof. destruct x as [[|c s]|]; simpl; auto. Qed.

Ltac single_line_tac :=
  repeat first
    [ apply single_line_app
    | apply single_line_or_else
    | assumption
    | apply single_line_bool; reflexivity ].

Lemma heading_of_other c s : c <> HASH -> heading_of (c :: s) = None.
Proof.
  intros Hc. destruct s as [|h2 [|sp [|d rest]]]; try done. simpl.
  by destruct (N.eqb_spec c HASH).
Qed.

Lemma issue_line_single i : issue_single_line i -> single_line (issue_line i).
Proof. intros (? & ? & ? & ?). unfold issue_line. single_line_tac. Qed.

Lemma issue_line_plain i : heading_of (issue_line i) = None.
Proof. by apply heading_of_other. Qed.

Lemma issue_lines_single issues :
  Forall issue_single_line issues -> Forall single_line (issue_lines issues).
Proof.
  intros H. unfold issue_lines. destruct issues as [|i issues]; simpl.
  - constructor; [|done]. single_line_tac.
  - apply Forall_cons in H as [Hi H]. constructor; [by apply issue_line_single|].
    apply Forall_map. eapply Forall_impl; [exact H|]. apply issue_line_single.
Qed.

Lemma issue_lines_plain issues :
  Forall (fun x => heading_of x = None) (issue_lines issues).
Proof.
  unfold issue_lines. destruct issues as [|i issues]; simpl.
  - by constructor.
  - constructor; [apply issue_line_plain|]. apply Forall_map, Forall_true.
    intros. apply issue_line_plain.
Qed.

(** The bullets of a window end in a line that ends in a visible character. *)
Lemma issue_lines_end issues :
  exists front x c, issue_lines issues = front ++ [x ++ [c]] /\ py_isspace c = false.
Proof.
  unfold issue_lines. destruct issues as [|i issues _] using rev_ind.
  - exists [], (str "- No update"), 115%N. by split.
  - replace (nonempty (issues ++ [i])) with true by by destruct issues.
    simpl. rewrite map_app. simpl.
    eexists (map issue_line issues), _, 41%N. split; [|done].
    do 2 f_equal. unfold issue_line. by rewrite !app_assoc.
Qed.

Lemma status_line_single p :
  single_line_opt (ProjectFact.url p) -> single_line_opt (ProjectFact.status p) ->
  single_line (status_line p).
Proof.
  intros Hu Hs. unfold status_line.
  destruct (ProjectFact.url p) as [[|c u]|]; simpl in Hu; single_line_tac.
Qed.

Lemma status_line_plain p : heading_of (status_line p) = None.
Proof.
  unfold status_line.
  destruct (ProjectFact.url p) as [[|c u]|]; by apply heading_of_other.
Qed.

Lemma status_line_starts p : exists s, status_line p = 42%N :: s.
Proof.
  unfold status_line. destruct (ProjectFact.url p) as [[|c u]|]; by eexists.
Qed.

Lemma project_body_lines_single p :
  project_single_line p -> Forall single_line (project_body_lines p).
Proof.
  intros (_ & _ & Hu & Hs & Hl & Ht). unfold project_body_lines.
  repeat first
    [ apply Forall_app; split
    | apply Forall_cons; split
    | exact I
    | apply Forall_nil
    | by apply issue_lines_single
    | by apply status_line_single
    | by (apply single_line_bool; reflexivity) ].
Qed.

Lemma project_body_lines_plain p :
  Forall (fun x => heading_of x = None) (project_body_lines p).
Proof.
  unfold project_body_lines.
  repeat first
    [ apply Forall_app; split
    | apply Forall_cons; split
    | exact I
    | apply Forall_nil
    | apply issue_lines_plain
    | apply status_line_plain
    | reflexivity ].
Qed.

Lemma project_lines_single p :
  project_single_line p -> Forall single_line (project_lines p).
Proof.
  intros H. unfold project_lines. constructor; [|by apply project_body_lines_single].
  destruct H as (_ & Hn & _). single_line_tac.
Qed.

Lemma project_heading p :
  ProjectFact.name p <> [] ->
  heading_of (str "## " ++ ProjectFact.name p) = Some (ProjectFact.name p).
Proof. by destruct (ProjectFact.name p). Qed.

(** The lines of one project: everything but a final empty line, and the
    last of the others ends in a visible character. *)
Lemma project_body_lines_end p :
  exists front x c,
    project_body_lines p = front ++ [x ++ [c]; []] /\ py_isspace c = false.
Proof.
  destruct (issue_lines_end (ProjectFact.this_week_issues p)) as (Q & x & c & E & Hc).
  unfold project_body_lines. rewrite E.
  exists ([status_line p; []] ++ [str "**Last Week**"]
            ++ issue_lines (ProjectFact.last_week_issues p) ++ [[]]
            ++ [str "**This Week**"] ++ Q), x, c.
  split; [|done].
  rewrite <- !app_assoc. reflexivity.
Qed.

(** ** Rendering, then splitting *)

Lemma rstrip_snoc_space s c : py_isspace c = true -> rstrip (s ++ [c]) = rstrip s.
Proof.
  intros Hc. induction s as [|d s IH]; simpl; [by rewrite Hc|]. by rewrite IH.
Qed.

Lemma strip_snoc_space s c : py_isspace c = true -> strip (s ++ [c]) = strip s.
Proof.
  intros Hc. unfold strip. induction s as [|d s IH]; simpl; [by rewrite Hc|].
  destruct (py_isspace d); [done|].
  change (d :: s ++ [c]) with ((d :: s) ++ [c]). by apply rstrip_snoc_space.
Qed.

Lemma join_ends sep front x (c : N) :
  exists y, join sep (front ++ [x ++ [c]]) = y ++ [c].
Proof.
  destruct front as [|f front].
  - by exists x.
  - rewrite join_snoc by done. eexists. by rewrite !app_assoc.
Qed.

(** With at least one project, the final [rstrip() + "\n"] only swaps the
    last line feed for itself: the text is the plain join of the lines. *)
Lemma rendered_text_is_join (head_lines : list pystr) ps p :
  let lines := head_lines ++ concat (map project_lines (ps ++ [p])) in
  rstrip (join [NL] lines) ++ [NL] = join [NL] lines.
Proof.
  intros lines.
  destruct (project_body_lines_end p) as (front & x & c & E & Hc).
  assert (El : lines =
    ((head_lines ++ concat (map project_lines ps)
       ++ (str "## " ++ ProjectFact.name p) :: front) ++ [x ++ [c]]) ++ [[]]).
  { unfold lines. rewrite map_app, concat_app.
    change (concat (map project_lines [p]))
      with (((str "## " ++ ProjectFact.name p) :: project_body_lines p) ++ []).
    rewrite app_nil_r, E. rewrite <- !app_assoc. reflexivity. }
  rewrite El. rewrite join_snoc; cycle 1.
  { intros Hnil. apply (f_equal length) in Hnil.
    rewrite length_app in Hnil. simpl in Hnil. lia. }
  destruct (join_ends [NL] (head_lines ++ concat (map project_lines ps)
              ++ (str "## " ++ ProjectFact.name p) :: front) x c) as (y & ->).
  rewrite app_nil_r. rewrite rstrip_snoc_space by done.
  by rewrite rstrip_snoc_clean.
Qed.

Lemma project_body_lines_cons p :
  exists bs, project_body_lines p = status_line p :: bs.
Proof. by eexists. Qed.

Lemma split_sections_heading cur l h rest :
  heading_of l = Some h ->
  split_sections cur l rest =
  cur :: h :: match rest with
              | [] => [[]]
              | l' :: rest' => split_sections [NL] l' rest'
              end.
Proof. intros H. destruct rest; simpl; by rewrite H. Qed.

(** [re.split] on the lines of a rendering: the text before the first
    heading, then name and text for each project. *)
Lemma split_sections_projects ps : forall cur l ls,
  heading_of l = None ->
  Forall (fun x => heading_of x = None) ls ->
  Forall (fun p => ProjectFact.name p <> []) ps ->
  split_sections cur l (ls ++ concat (map project_lines ps)) =
  match ps with
  | [] => [cur ++ join [NL] (l :: ls)]
  | _ :: _ => (cur ++ flat_lines (l :: ls)) :: rendered_sections ps
  end.
Proof.
  induction ps as [|p ps IH]; intros cur l ls Hl Hls Hps.
  - simpl. by rewrite (split_sections_run ls cur l []).
  - apply Forall_cons in Hps as [Hp Hps].
    change (concat (map project_lines (p :: ps)))
      with (((str "## " ++ ProjectFact.name p) :: project_body_lines p)
              ++ concat (map project_lines ps)).
    rewrite <- app_comm_cons. rewrite split_sections_run by done.
    rewrite (split_sections_heading _ _ (ProjectFact.name p))
      by by apply project_heading.
    f_equal. cbn [rendered_sections]. f_equal.
    destruct (project_body_lines_cons p) as (bs & E).
    pose proof (project_body_lines_plain p) as Hplain.
    rewrite E in *. apply Forall_cons in Hplain as [H1 H2].
    rewrite <- app_comm_cons. rewrite IH by done.
    by destruct ps.
Qed.

Lemma header_lines_plain _fmt facts :
  exists l ls, header_lines _fmt facts = l :: ls /\ heading_of l = None /\
               Forall (fun x => heading_of x = None) ls.
Proof.
  eexists _, _. split; [reflexivity|]. split; [done|].
  repeat constructor.
Qed.

Lemma header_lines_single _fmt facts :
  single_line (Facts.team_name facts) ->
  single_line (_fmt (Facts.generated_at_utc facts)) ->
  Forall single_line (header_lines _fmt facts).
Proof.
  intros Ht Hg. unfold header_lines.
  repeat first [ apply Forall_cons; split | exact I | apply Forall_nil ];
    single_line_tac.
Qed.

Lemma concat_project_lines_single ps :
  Forall project_single_line ps ->
  Forall single_line (concat (map project_lines ps)).
Proof.
  induction 1 as [|p ps Hp _ IH]; [constructor|].
  change (concat (map project_lines (p :: ps)))
    with (project_lines p ++ concat (map project_lines ps)).
  apply Forall_app. split; [by apply project_lines_single|done].
Qed.

(** The sections of a rendered document with at least one project. *)
Lemma rendered_document_sections _fmt facts :
  Facts.projects facts <> [] ->
  single_line (Facts.team_name facts) ->
  single_line (_fmt (Facts.generated_at_utc facts)) ->
  Forall project_single_line (Facts.projects facts) ->
  tail (re_split_headings (_facts_to_markdown _fmt facts)) =
  rendered_sections (Facts.projects facts).
Proof.
  intros Hne Ht Hg Hps. unfold _facts_to_markdown.
  destruct (Facts.projects facts) as [|q qs] eqn:Eps using rev_ind; [done|].
  clear IHqs. cbv zeta. rewrite rendered_text_is_join.
  unfold re_split_headings. rewrite lines_of_join; cycle 1.
  { by destruct (header_lines_plain _fmt facts) as (l & ls & -> & _). }
  { apply Forall_app. split; [by apply header_lines_single|].
    by apply concat_project_lines_single. }
  destruct (header_lines_plain _fmt facts) as (l & ls & -> & Hl & Hls).
  rewrite <- app_comm_cons. rewrite split_sections_projects; try done.
  - by destruct (qs ++ [q]) eqn:E; [destruct qs|].
  - eapply Forall_impl; [exact Hps|]. by intros p (? & _).
Qed.

(** ** Routing the rendered sections *)

Lemma NoDup_map_injective {A B} (f : A -> B) (l : list A) x y :
  NoDup (map f l) -> In x l -> In y l -> f x = f y -> x = y.
Proof.
  induction l as [|a l IH]; [done|]. simpl. intros Hnd Hx Hy E.
  apply NoDup_cons in Hnd as [Ha Hnd].
  rewrite list_elem_of_In, in_map_iff in Ha.
  destruct Hx as [->|Hx], Hy as [->|Hy]; eauto.
  - destruct Ha. eauto.
  - destruct Ha. eauto.
Qed.

Lemma matching_project_unique projects p :
  NoDup (map (fun q => _normalize_name (ProjectFact.name q)) projects) ->
  In p projects ->
  matching_project projects (ProjectFact.name p) = Some p.
Proof.
  intros Hnd Hp.
  destruct (matching_project projects (ProjectFact.name p)) as [q|] eqn:E.
  - apply matching_project_Some in E as [Hq E]. f_equal.
    by apply (NoDup_map_injective _ _ _ _ Hnd).
  - rewrite matching_project_None in E. by destruct (E p Hp).
Qed.

Lemma strip_cons_clean c s :
  py_isspace c = false -> strip (c :: s) = c :: rstrip s.
Proof. intros H. unfold strip. simpl. rewrite H. by apply rstrip_cons_clean. Qed.

Lemma body_text_nonempty p : strip (join [NL] (project_body_lines p)) <> [].
Proof.
  destruct (status_line_starts p) as (s & Es).
  destruct (project_body_lines_cons p) as (bs & E). rewrite E, Es.
  assert (Hj : exists t, join [NL] ((42%N :: s) :: bs) = 42%N :: t).
  { destruct bs; [by eexists|]. rewrite join_cons. by eexists. }
  destruct Hj as (t & ->). by rewrite strip_cons_clean.
Qed.

Lemma strip_section_text p (ps : list ProjectFact.t) :
  strip (match ps with
         | [] => [NL] ++ join [NL] (project_body_lines p)
         | _ :: _ => [NL] ++ flat_lines (project_body_lines p)
         end : pystr)
  = strip (join [NL] (project_body_lines p)).
Proof.
  destruct ps as [|? ?]; [done|].
  rewrite flat_lines_join by done.
  change (strip ([NL] ++ ?x)) with (strip x). by apply strip_snoc_space.
Qed.

Lemma route_rendered_sections projects ps :
  NoDup (map (fun q => _normalize_name (ProjectFact.name q)) projects) ->
  (forall p, In p ps -> In p projects) ->
  omap (route_pair projects) (heading_body_pairs (rendered_sections ps)) =
  map (fun p => Update.mk (ProjectFact.id p) (ProjectFact.name p)
                          (strip (join [NL] (project_body_lines p)))) ps.
Proof.
  intros Hnd. induction ps as [|p ps IH]; intros Hin; [done|].
  assert (E : rendered_sections (p :: ps) =
              ProjectFact.name p ::
              (match ps with
               | [] => [NL] ++ join [NL] (project_body_lines p)
               | _ :: _ => [NL] ++ flat_lines (project_body_lines p)
               end) :: rendered_sections ps) by by destruct ps.
  rewrite E. cbn [heading_body_pairs omap list_omap map].
  unfold route_pair at 1. cbn [fst snd].
  rewrite matching_project_unique by (done || (apply Hin; by left)).
  rewrite strip_section_text.
  pose proof (body_text_nonempty p) as Hne.
  destruct (strip (join [NL] (project_body_lines p))) eqn:Eb; [done|].
  simpl. rewrite IH; [done|]. intros q Hq. apply Hin. by right.
Qed.

Lemma route_no_projects (pairs : list (pystr * pystr)) :
  omap (route_pair []) pairs = [].
Proof. induction pairs as [|hb pairs IH]; [done|]. exact IH. Qed.

Lemma count_own_id (ps : list ProjectFact.t) (body_of : ProjectFact.t -> pystr) p :
  NoDup (map ProjectFact.id ps) -> In p ps ->
  length (List.filter
            (fun u => bool_decide (Update.project_id u = ProjectFact.id p))
            (map (fun q => Update.mk (ProjectFact.id q) (ProjectFact.name q) (body_of q)) ps))
  = 1%nat.
Proof.
  induction ps as [|q ps IH]; [done|]. intros Hnd Hin.
  cbn [map] in Hnd. apply NoDup_cons in Hnd as [Hq Hnd].
  rewrite list_elem_of_In, in_map_iff in Hq.
  cbn [map List.filter Update.project_id]. case_bool_decide as E.
  - cbn [length]. f_equal. destruct Hin as [->|Hin]; [|destruct Hq; eauto].
    clear IH E Hnd. induction ps as [|r ps IH]; [done|].
    cbn [map List.filter Update.project_id]. case_bool_decide as E.
    + destruct Hq. exists r. split; [done|by left].
    + apply IH. intros (x & ? & ?). apply Hq. exists x. split; [done|by right].
  - destruct Hin as [->|Hin]; [done|]. by apply IH.
Qed.

(** C6 as stated fails: of two projects that share a name, the first gets
    no section under its own id; both sections are keyed to the second. *)
Lemma round_trip_counterexample :
  map Update.project_id
      (_parse_project_updates (_facts_to_markdown sample_fmt clashing_facts)
                              clashing_facts)
    = [str "p3"; str "p3"] /\
  ~ recovers_each_project sample_fmt clashing_facts.
Proof.
  split; [by vm_compute|].
  intros H. specialize (H apollo).
  assert (Hin : In apollo (Facts.projects clashing_facts)) by (left; done).
  assert (Hiss : ProjectFact.last_week_issues apollo <> [] \/
                 ProjectFact.this_week_issues apollo <> []) by (left; done).
  specialize (H Hin Hiss). vm_compute in H. discriminate.
Qed.

(** C6 (amended). For a fact document whose rendered fields hold no line
    feed and whose projects have non-empty names that stay pairwise distinct
    after normalization, rendering with [_facts_to_markdown] and routing the
    text back returns exactly one update per project of the document, in
    order, each with that project's id and name and the text of its section
    (also for a project without issues, whose section reads "No updates");
    with distinct project ids, each project has exactly one update under its
    id. *)
Theorem render_then_route (_fmt : pystr -> pystr) (facts : Facts.t) :
  single_line (Facts.team_name facts) ->
  single_line (_fmt (Facts.generated_at_utc facts)) ->
  Forall project_single_line (Facts.projects facts) ->
  NoDup (map (fun p => _normalize_name (ProjectFact.name p)) (Facts.projects facts)) ->
  _parse_project_updates (_facts_to_markdown _fmt facts) facts =
    map (fun p => Update.mk (ProjectFact.id p) (ProjectFact.name p)
                            (strip (join [NL] (project_body_lines p))))
        (Facts.projects facts) /\
  (forall u, In u (_parse_project_updates (_facts_to_markdown _fmt facts) facts) ->
             Update.body u <> []) /\
  (NoDup (map ProjectFact.id (Facts.projects facts)) ->
   recovers_each_project _fmt facts).
Proof.
  intros Ht Hg Hps Hnd.
  assert (Heq : _parse_project_updates (_facts_to_markdown _fmt facts) facts =
    map (fun p => Update.mk (ProjectFact.id p) (ProjectFact.name p)
                            (strip (join [NL] (project_body_lines p))))
        (Facts.projects facts)).
  { unfold _parse_project_updates. cbv zeta. rewrite route_sections_pairs.
    destruct (Facts.projects facts) as [|p ps] eqn:Eps.
    - apply route_no_projects.
    - rewrite rendered_document_sections by (rewrite ?Eps; done).
      rewrite Eps. by apply route_rendered_sections. }
  split; [exact Heq|]. split.
  - intros u Hu. rewrite Heq in Hu. apply in_map_iff in Hu as (p & <- & _).
    apply body_text_nonempty.
  - intros Hids p Hp _. rewrite Heq. by apply count_own_id.
Qed.

Lemma render_then_route_witness :
  _parse_project_updates (_facts_to_markdown sample_fmt sample_facts) sample_facts =
    map (fun p => Update.mk (ProjectFact.id p) (ProjectFact.name p)
                            (strip (join [NL] (project_body_lines p))))
        (Facts.projects sample_facts) /\
  (forall u, In u (_parse_project_updates (_facts_to_markdown sample_fmt sample_facts)
                                          sample_facts) ->
             Update.body u <> []) /\
  (NoDup (map ProjectFact.id (Facts.projects sample_facts)) ->
   recovers_each_project sample_fmt sample_facts).
Proof.
  apply (render_then_route sample_fmt sample_facts).
  - apply single_line_bool. reflexivity.
  - apply single_line_bool. reflexivity.
  - repeat constructor; try (apply single_line_bool; reflexivity); discriminate.
  - vm_compute. repeat constructor; rewrite ?list_elem_of_In; simpl; intuition discriminate.
Defined.

(** ** The GraphQL call *)

Section ClientFacts.
#[local] Arguments str : simpl never.
Context {World : Type}.
Context (post : pystr -> json -> World -> result Response.t * World).
Context (py_repr : json -> pystr).
Context (describe : builtin_error -> pystr).

Lemma graphql_unfold query variables w :
  graphql post py_repr query variables w =
  match post query (py_or variables (JObj [])) w with
  | (Ok resp, w') => (graphql_check py_repr resp, w')
  | (Raise e, w') => (Raise e, w')
  end.
Proof. unfold graphql, bind, lift. by destruct (post _ _ _) as [[?|?] ?]. Qed.

Lemma first_error_message_raises_or_truthy payload :
  match first_error_message payload with
  | Ok m => py_truthy m = true
  | Raise _ => True
  end.
Proof.
  unfold first_error_message.
  destruct (py_getitem payload _) as [errors|]; [|done]. simpl.
  destruct (py_getitem_0 errors) as [first|]; [|done]. simpl.
  destruct (py_get first _) as [m|]; [|done]. simpl.
  unfold py_or. by destruct (py_truthy m) eqn:E.
Qed.

(** With a status of 400 or more the checks after the exchange never
    produce data. *)
Lemma graphql_check_http_error resp :
  400 <= Response.status_code resp ->
  exists e, graphql_check py_repr resp = Raise e.
Proof.
  intros H. unfold graphql_check. apply Z.leb_le in H. rewrite H.
  destruct (py_truthy (default JNull (Response.json_payload resp))); simpl.
  - destruct (py_get _ _) as [e|]; simpl; [|by eexists].
    destruct (py_truthy e); [|by eexists].
    destruct (first_error_message _) as [m|]; simpl; [|by eexists].
    destruct (py_getitem _ _); simpl; by eexists.
  - by eexists.
Qed.

(** X1. A status of 400 or more never yields data: [graphql] raises.  When the
    body is not JSON the exception is a [LinearAPIError] that shows the
    status code and the first 500 characters of the body, trimmed, or
    "No response body" when nothing is left. *)
Theorem graphql_http_error query variables w resp w' :
  post query (py_or variables (JObj [])) w = (Ok resp, w') ->
  400 <= Response.status_code resp ->
  (exists e, graphql post py_repr query variables w = (Raise e, w')) /\
  (Response.json_payload resp = None ->
   graphql post py_repr query variables w =
   (Raise (LinearAPIError
             (str "Linear HTTP " ++ py_str_int (Response.status_code resp) ++ str ": "
                ++ (if nonempty (strip (take 500 (Response.text resp)))
                    then strip (take 500 (Response.text resp))
                    else str "No response body"))
             (JArr [])), w')).
Proof.
  intros Hpost Hst. rewrite graphql_unfold, Hpost. split.
  - destruct (graphql_check_http_error resp Hst) as (e & ->). by exists e.
  - intros Hnone. f_equal. unfold graphql_check. rewrite Hnone. simpl.
    apply Z.leb_le in Hst. by rewrite Hst.
Qed.

Lemma graphql_check_data resp d :
  graphql_check py_repr resp = Ok d ->
  Response.status_code resp < 400 /\
  exists fields,
    Response.json_payload resp = Some (JObj fields) /\
    assoc (str "data") fields = Some d /\ d <> JNull /\
    match assoc (str "errors") fields with
    | Some e => py_truthy e = false
    | None => True
    end.
Proof.
  unfold graphql_check.
  destruct (Z.leb_spec 400 (Response.status_code resp)) as [Hst|Hst].
  { intros H. exfalso.
    destruct (py_truthy (default JNull (Response.json_payload resp))); simpl in H.
    - destruct (py_get _ _) as [e|]; simpl in H; [|done].
      destruct (py_truthy e); [|done].
      destruct (first_error_message _) as [m|]; simpl in H; [|done].
      by destruct (py_getitem _ _).
    - done. }
  split; [done|].
  destruct (Response.json_payload resp) as [payload|]; [|done]. simpl in H.
  destruct payload as [|b|n|s|items|fields]; try done.
  - simpl in H. destruct (is_substring _ s); simpl in H; done.
  - simpl in H. destruct (existsb _ items); simpl in H; done.
  - exists fields. split; [done|]. simpl in H.
    destruct (assoc (str "errors") fields) as [e|] eqn:Ee; simpl in H.
    + destruct (py_truthy e) eqn:Et.
      * pose proof (first_error_message_raises_or_truthy (JObj fields)) as Hm.
        destruct (first_error_message _) as [m|]; simpl in H; [|done].
        by simpl in H.
      * destruct (assoc (str "data") fields) as [x|] eqn:Ed; simpl in H; [|done].
        destruct x; try done; injection H as <-; by repeat split.
    + destruct (assoc (str "data") fields) as [x|] eqn:Ed; simpl in H; [|done].
      destruct x; try done; injection H as <-; by repeat split.
Qed.

(** X2. [graphql] returns data only from a response with a status below 400
    whose body is a JSON object with a non-null "data" member and no
    non-empty "errors" member; what it returns is that member. *)
Theorem graphql_returns_data query variables w d w' :
  graphql post py_repr query variables w = (Ok d, w') ->
  exists resp fields,
    post query (py_or variables (JObj [])) w = (Ok resp, w') /\
    Response.status_code resp < 400 /\
    Response.json_payload resp = Some (JObj fields) /\
    assoc (str "data") fields = Some d /\ d <> JNull /\
    match assoc (str "errors") fields with
    | Some e => py_truthy e = false
    | None => True
    end.
Proof.
  rewrite graphql_unfold.
  destruct (post query _ w) as [[resp|e] w1] eqn:Hpost; [|done].
  intros [= Hc <-]. apply graphql_check_data in Hc as (Hst & fields & ? & ? & ? & ?).
  exists resp, fields. by repeat split.
Qed.

(** X3. A non-empty error list makes [graphql] raise even when the response
    also carries data: the exception bears the first error's message and the
    whole list. *)
Theorem graphql_errors_discard_data query variables w resp w' fields first rest m :
  post query (py_or variables (JObj [])) w = (Ok resp, w') ->
  Response.status_code resp < 400 ->
  Response.json_payload resp = Some (JObj fields) ->
  assoc (str "errors") fields = Some (JArr (JObj first :: rest)) ->
  assoc (str "message") first = Some (JStr m) -> m <> [] ->
  graphql post py_repr query variables w =
  (Raise (LinearAPIError m (JArr (JObj first :: rest))), w').
Proof.
  intros Hpost Hst Hp He Hm Hne. rewrite graphql_unfold, Hpost. f_equal.
  unfold graphql_check. rewrite Hp. apply Z.leb_gt in Hst. rewrite Hst.
  simpl. rewrite He. simpl. unfold first_error_message. simpl. rewrite He.
  simpl. rewrite Hm. simpl. by destruct m.
Qed.

(** ** Project health *)

Lemma get_project_health_unfold project_id w :
  get_project_health post py_repr project_id w =
  match graphql post py_repr PROJECT_HEALTH_QUERY
                (JObj [(str "projectId", JStr project_id)]) w with
  | (Ok data, w') =>
      match rbind (py_get_default data (str "project") (JObj [])) (fun project =>
                   py_get project (str "health")) with
      | Raise (LinearAPIError _ _) => (Ok JNull, w')
      | r => (r, w')
      end
  | (Raise (LinearAPIError _ _), w') => (Ok JNull, w')
  | (Raise e, w') => (Raise e, w')
  end.
Proof.
  unfold get_project_health, bind, lift.
  by destruct (graphql _ _ _ _ w) as [[data|[?|?|?]] w1].
Qed.

(** X4. [get_project_health] turns a [LinearAPIError] of the call into [None]
    and nothing else: a transport exception, or a built-in exception raised
    on a malformed response, reaches the caller. *)
Theorem get_project_health_swallows_api_errors_only project_id w w' :
  (forall msg errors,
     graphql post py_repr PROJECT_HEALTH_QUERY
             (JObj [(str "projectId", JStr project_id)]) w
       = (Raise (LinearAPIError msg errors), w') ->
     get_project_health post py_repr project_id w = (Ok JNull, w')) /\
  (forall msg,
     graphql post py_repr PROJECT_HEALTH_QUERY
             (JObj [(str "projectId", JStr project_id)]) w
       = (Raise (HTTPError msg), w') ->
     get_project_health post py_repr project_id w = (Raise (HTTPError msg), w')) /\
  (forall b,
     graphql post py_repr PROJECT_HEALTH_QUERY
             (JObj [(str "projectId", JStr project_id)]) w
       = (Raise (Builtin b), w') ->
     get_project_health post py_repr project_id w = (Raise (Builtin b), w')).
Proof.
  repeat split; intros; rewrite get_project_health_unfold; by rewrite H.
Qed.

(** X5. What [get_project_health] makes of the data of a successful call: the
    project's "health" member, [None] when the project has none or the data
    has no "project" member, and an [AttributeError] when the project is
    null. *)
Theorem get_project_health_of_data project_id w fields w' :
  graphql post py_repr PROJECT_HEALTH_QUERY
          (JObj [(str "projectId", JStr project_id)]) w = (Ok (JObj fields), w') ->
  (forall project,
     assoc (str "project") fields = Some (JObj project) ->
     get_project_health post py_repr project_id w
       = (Ok (default JNull (assoc (str "health") project)), w')) /\
  (assoc (str "project") fields = None ->
     get_project_health post py_repr project_id w = (Ok JNull, w')) /\
  (assoc (str "project") fields = Some JNull ->
     get_project_health post py_repr project_id w
       = (Raise (Builtin (AttributeError JNull)), w')).
Proof.
  intros Hg. repeat split.
  - intros project Hp. rewrite get_project_health_unfold, Hg. simpl. rewrite Hp.
    simpl. by destruct (assoc (str "health") project).
  - intros Hp. rewrite get_project_health_unfold, Hg. simpl. by rewrite Hp.
  - intros Hp. rewrite get_project_health_unfold, Hg. simpl. by rewrite Hp.
Qed.
End ClientFacts.

(** ** Listing the team's projects *)

Lemma assoc_head k v rest : assoc k ((k, v) :: rest) = Some v.
Proof. simpl. by rewrite bool_decide_eq_true_2. Qed.

Lemma assoc_skip k k' v rest : k' <> k -> assoc k ((k', v) :: rest) = assoc k rest.
Proof. intros H. simpl. by rewrite bool_decide_eq_false_2. Qed.

Ltac assoc_tac :=
  repeat first
    [ rewrite assoc_head
    | rewrite assoc_skip by (let H := fresh in intros H; vm_compute in H; discriminate H) ].

Lemma project_of_node_ok field_name n :
  node_ok n -> project_of_node field_name n = Ok (node_project field_name n).
Proof.
  intros (fields & id & name & -> & Hid & Hname).
  unfold project_of_node, node_project, py_get, py_get_default, py_getitem.
  rewrite Hid, Hname.
  destruct (assoc field_name fields) as [s|];
    destruct (assoc (str "url") fields) as [u|]; simpl; try done;
    destruct (py_or s (JObj [])) as [|?|?|?|?|status]; simpl; try done;
    by destruct (assoc _ status).
Qed.

Lemma append_projects_ok field_name nodes : forall projects,
  Forall node_ok nodes ->
  append_projects field_name projects nodes =
  Ok (projects ++ map (node_project field_name) nodes).
Proof.
  induction nodes as [|n nodes IH]; intros projects Hn; simpl.
  - by rewrite app_nil_r.
  - apply Forall_cons in Hn as [H1 H2]. rewrite project_of_node_ok by done.
    simpl. rewrite IH by done. by rewrite <- app_assoc.
Qed.

Section ProjectListing.
#[local] Arguments str : simpl never.
Context {World : Type}.
Context (post : pystr -> json -> World -> result Response.t * World).
Context (py_repr : json -> pystr).
Context (describe : builtin_error -> pystr).

(** One turn of the page loop, when the call returns a page of well-formed
    nodes. *)
Lemma project_pages_step field_name query team_id first n projects after w
      nodes has_next cursor w' :
  graphql post py_repr query (page_variables team_id first after) w
    = (Ok (page_data nodes has_next cursor), w') ->
  Forall node_ok nodes ->
  project_pages post py_repr field_name query team_id first (S n) projects after w =
  if py_truthy has_next
  then project_pages post py_repr field_name query team_id first n
         (projects ++ map (node_project field_name) nodes) cursor w'
  else (Ok (projects ++ map (node_project field_name) nodes), w').
Proof.
  intros Hg Hn. cbn [project_pages]. unfold bind at 1.
  unfold page_variables in Hg. rewrite Hg.
  unfold bind, lift, ret, page_data.
  do 4 (cbn [py_getitem rbind py_iter]; assoc_tac).
  rewrite append_projects_ok by done.
  do 3 (cbn [py_getitem rbind py_iter]; assoc_tac).
  destruct (py_truthy has_next); [|done].
  cbn [negb py_getitem]. by assoc_tac.
Qed.

(** A failing first call ends the loop with that exception. *)
Lemma project_pages_raise field_name query team_id first n projects after w e w' :
  graphql post py_repr query (page_variables team_id first after) w = (Raise e, w') ->
  project_pages post py_repr field_name query team_id first (S n) projects after w =
  (Raise e, w').
Proof.
  intros Hg. cbn [project_pages]. unfold bind at 1.
  unfold page_variables in Hg. by rewrite Hg.
Qed.

(** X6. When the first request of the "status" shape is answered with a page that
    has no next page and whose nodes are objects with an id and a name,
    [list_team_projects] returns the projects of these nodes, their status
    read from the "status" member, after that one call: the
    "projectStatus" query is not sent. *)
Theorem list_team_projects_first_shape team_id first max_pages w
        nodes has_next cursor w' :
  1 <= max_pages ->
  graphql post py_repr STATUS_QUERY (page_variables team_id first JNull) w
    = (Ok (page_data nodes has_next cursor), w') ->
  py_truthy has_next = false ->
  Forall node_ok nodes ->
  list_team_projects post py_repr describe team_id first max_pages w =
  (Ok (map (node_project (str "status")) nodes), w').
Proof.
  intros Hmax Hg Hlast Hn. unfold list_team_projects. cbn [try_queries].
  destruct (Z.to_nat max_pages) as [|n] eqn:En; [lia|].
  rewrite (project_pages_step _ _ _ _ _ _ _ _ _ _ _ _ Hg Hn). by rewrite Hlast.
Qed.

(** X7. When the first call of each query shape raises, [list_team_projects]
    raises one [LinearAPIError]: its message is the fixed text followed by
    the second exception's text; the first exception leaves no trace. *)
Theorem list_team_projects_both_fail team_id first max_pages w e1 w1 e2 w2 :
  1 <= max_pages ->
  graphql post py_repr STATUS_QUERY (page_variables team_id first JNull) w
    = (Raise e1, w1) ->
  graphql post py_repr PROJECT_STATUS_QUERY (page_variables team_id first JNull) w1
    = (Raise e2, w2) ->
  list_team_projects post py_repr describe team_id first max_pages w =
  (Raise (LinearAPIError (msg_projects_failed ++ str_exn describe e2) (JArr [])), w2).
Proof.
  intros Hmax H1 H2. unfold list_team_projects. cbn [try_queries].
  destruct (Z.to_nat max_pages) as [|n] eqn:En; [lia|].
  rewrite (project_pages_raise _ _ _ _ _ _ _ _ _ _ H1).
  by rewrite (project_pages_raise _ _ _ _ _ _ _ _ _ _ H2).
Qed.

(** X8. A failure in the middle of the first shape's pages: the projects of the
    pages already read are dropped, and the result is that of the
    "projectStatus" shape, its pages read from the start and the status
    taken from the "projectStatus" member. *)
Theorem list_team_projects_fallback_drops_partial team_id first max_pages w
        nodes1 cursor1 w1 e w2 nodes2 has_next2 cursor2 w3 :
  2 <= max_pages ->
  graphql post py_repr STATUS_QUERY (page_variables team_id first JNull) w
    = (Ok (page_data nodes1 (JBool true) cursor1), w1) ->
  Forall node_ok nodes1 ->
  graphql post py_repr STATUS_QUERY (page_variables team_id first cursor1) w1
    = (Raise e, w2) ->
  graphql post py_repr PROJECT_STATUS_QUERY (page_variables team_id first JNull) w2
    = (Ok (page_data nodes2 has_next2 cursor2), w3) ->
  py_truthy has_next2 = false ->
  Forall node_ok nodes2 ->
  list_team_projects post py_repr describe team_id first max_pages w =
  (Ok (map (node_project (str "projectStatus")) nodes2), w3).
Proof.
  intros Hmax H1 Hn1 H2 H3 Hlast Hn2. unfold list_team_projects. cbn [try_queries].
  destruct (Z.to_nat max_pages) as [|[|n]] eqn:En; [lia|lia|].
  rewrite (project_pages_step _ _ _ _ _ _ _ _ _ _ _ _ H1 Hn1). cbn [py_truthy].
  rewrite (project_pages_raise _ _ _ _ _ _ _ _ _ _ H2).
  rewrite (project_pages_step _ _ _ _ _ _ _ _ _ _ _ _ H3 Hn2). by rewrite Hlast.
Qed.
End ProjectListing.

(** ** The client against a scripted service *)

Lemma graphql_scripted query variables r w :
  graphql scripted sample_repr query variables (Ok r :: w) =
  (graphql_check sample_repr r, w).
Proof. by rewrite graphql_unfold. Qed.

Lemma graphql_check_page nodes has_next cursor :
  graphql_check sample_repr (data_response (page_data nodes has_next cursor)) =
  Ok (page_data nodes has_next cursor).
Proof. by vm_compute. Qed.

Lemma project_pages_endless field_name query team_id first pages :
  forall projects after rest,
  Forall (fun pg => Forall node_ok (fst pg)) pages ->
  project_pages scripted sample_repr field_name query team_id first
                (length pages) projects after (endless_pages pages ++ rest) =
  (Ok (projects ++ concat (map (fun pg => map (node_project field_name) (fst pg)) pages)),
   rest).
Proof.
  induction pages as [|[nodes cursor] pages IH]; intros projects after rest Hok.
  - simpl. by rewrite app_nil_r.
  - apply Forall_cons in Hok as [Hn Hok].
    change (length ((nodes, cursor) :: pages)) with (S (length pages)).
    rewrite (project_pages_step scripted sample_repr field_name query team_id first
               (length pages) projects after _ nodes (JBool true) cursor
               (endless_pages pages ++ rest)); [|by rewrite <- graphql_check_page|done].
    cbn [py_truthy]. rewrite IH by done. cbn [map concat fst]. by rewrite <- app_assoc.
Qed.

(** X9. The page ceiling: when every answer is a well-formed page that announces
    a further page, [list_team_projects] stops after [max_pages] requests and
    returns the projects read so far without raising; the answers beyond
    the ceiling are never asked for. *)
Theorem list_team_projects_page_ceiling team_id first max_pages pages rest :
  length pages = Z.to_nat max_pages ->
  Forall (fun pg => Forall node_ok (fst pg)) pages ->
  list_team_projects scripted sample_repr sample_describe team_id first max_pages
                     (endless_pages pages ++ rest) =
  (Ok (concat (map (fun pg => map (node_project (str "status")) (fst pg)) pages)), rest).
Proof.
  intros Hlen Hok. unfold list_team_projects. cbn [try_queries].
  rewrite <- Hlen. by rewrite project_pages_endless.
Qed.

Lemma list_team_projects_page_ceiling_witness :
  list_team_projects scripted sample_repr sample_describe (str "team") 50 2
    (endless_pages [([sample_node], JStr (str "c1")); ([], JStr (str "c2"))]
       ++ [Ok resp_500]) =
  (Ok (concat (map (fun pg => map (node_project (str "status")) (fst pg))
                   [([sample_node], JStr (str "c1")); ([], JStr (str "c2"))])),
   [Ok resp_500]).
Proof.
  apply (list_team_projects_page_ceiling (str "team") 50 2
           [([sample_node], JStr (str "c1")); ([], JStr (str "c2"))] [Ok resp_500]).
  - reflexivity.
  - repeat constructor. by exists
      [(str "id", JStr (str "p1")); (str "name", JStr (str "Apollo"));
       (str "url", JNull);
       (str "projectStatus", JObj [(str "name", JStr (str "QA"))])],
      (JStr (str "p1")), (JStr (str "Apollo")).
Defined.

Lemma graphql_http_error_witness :
  (exists e, graphql scripted sample_repr PROJECT_HEALTH_QUERY health_variables
                     [Ok resp_500] = (Raise e, [])) /\
  (Response.json_payload resp_500 = None ->
   graphql scripted sample_repr PROJECT_HEALTH_QUERY health_variables [Ok resp_500] =
   (Raise (LinearAPIError
             (str "Linear HTTP " ++ py_str_int (Response.status_code resp_500) ++ str ": "
                ++ (if nonempty (strip (take 500 (Response.text resp_500)))
                    then strip (take 500 (Response.text resp_500))
                    else str "No response body"))
             (JArr [])), [])).
Proof.
  apply (graphql_http_error scripted sample_repr PROJECT_HEALTH_QUERY health_variables
           [Ok resp_500] resp_500 []).
  - reflexivity.
  - simpl. lia.
Defined.

Lemma graphql_returns_data_witness :
  exists resp fields,
    scripted PROJECT_HEALTH_QUERY (py_or health_variables (JObj []))
             [Ok (health_data JNull)] = (Ok resp, []) /\
    Response.status_code resp < 400 /\
    Response.json_payload resp = Some (JObj fields) /\
    assoc (str "data") fields = Some (JObj [(str "project", JNull)]) /\
    JObj [(str "project", JNull)] <> JNull /\
    match assoc (str "errors") fields with
    | Some e => py_truthy e = false
    | None => True
    end.
Proof.
  apply (graphql_returns_data scripted sample_repr PROJECT_HEALTH_QUERY health_variables
           [Ok (health_data JNull)] (JObj [(str "project", JNull)]) []).
  reflexivity.
Defined.

Lemma graphql_errors_discard_data_witness :
  graphql scripted sample_repr PROJECT_HEALTH_QUERY health_variables [Ok resp_errors] =
  (Raise (LinearAPIError (str "Entity not found")
            (JArr [JObj [(str "message", JStr (str "Entity not found"))]])), []).
Proof.
  apply (graphql_errors_discard_data scripted sample_repr PROJECT_HEALTH_QUERY
           health_variables [Ok resp_errors] resp_errors []
           [(str "data", JObj [(str "project", JNull)]);
            (str "errors", JArr [JObj [(str "message", JStr (str "Entity not found"))]])]
           [(str "message", JStr (str "Entity not found"))] []
           (str "Entity not found")).
  - reflexivity.
  - simpl. lia.
  - reflexivity.
  - reflexivity.
  - reflexivity.
  - discriminate.
Defined.

Lemma get_project_health_swallows_api_errors_only_witness :
  get_project_health scripted sample_repr (str "p1") [Ok resp_500] = (Ok JNull, []).
Proof.
  eapply (proj1 (get_project_health_swallows_api_errors_only scripted sample_repr
                   (str "p1") [Ok resp_500] [])).
  reflexivity.
Defined.

Lemma get_project_health_of_data_witness :
  get_project_health scripted sample_repr (str "p1") [Ok (health_data JNull)]
    = (Raise (Builtin (AttributeError JNull)), []).
Proof.
  apply (proj2 (proj2 (get_project_health_of_data scripted sample_repr (str "p1")
                         [Ok (health_data JNull)] [(str "project", JNull)] []
                         eq_refl))).
  reflexivity.
Defined.

Lemma list_team_projects_first_shape_witness :
  list_team_projects scripted sample_repr sample_describe (str "team") 50 20
    [Ok (data_response (page_data [sample_node] (JBool false) JNull))] =
  (Ok (map (node_project (str "status")) [sample_node]), []).
Proof.
  apply (list_team_projects_first_shape scripted sample_repr sample_describe
           (str "team") 50 20 _ [sample_node] (JBool false) JNull []).
  - lia.
  - reflexivity.
  - reflexivity.
  - repeat constructor. by exists
      [(str "id", JStr (str "p1")); (str "name", JStr (str "Apollo"));
       (str "url", JNull);
       (str "projectStatus", JObj [(str "name", JStr (str "QA"))])],
      (JStr (str "p1")), (JStr (str "Apollo")).
Defined.

Lemma list_team_projects_both_fail_witness :
  list_team_projects scripted sample_repr sample_describe (str "team") 50 20
    [Ok resp_errors; Raise (HTTPError (str "timed out"))] =
  (Raise (LinearAPIError
            (msg_projects_failed ++ str_exn sample_describe (HTTPError (str "timed out")))
            (JArr [])), []).
Proof.
  apply (list_team_projects_both_fail scripted sample_repr sample_describe
           (str "team") 50 20 _
           (LinearAPIError (str "Entity not found")
              (JArr [JObj [(str "message", JStr (str "Entity not found"))]]))
           [Raise (HTTPError (str "timed out"))]
           (HTTPError (str "timed out")) []).
  - lia.
  - reflexivity.
  - reflexivity.
Defined.

Lemma list_team_projects_fallback_drops_partial_witness :
  list_team_projects scripted sample_repr sample_describe (str "team") 50 20
    [Ok (data_response (page_data [sample_node] (JBool true) (JStr (str "c1"))));
     Ok resp_500;
     Ok (data_response (page_data [sample_node] (JBool false) JNull))] =
  (Ok (map (node_project (str "projectStatus")) [sample_node]), []).
Proof.
  assert (Hn : Forall node_ok [sample_node]).
  { repeat constructor. by exists
      [(str "id", JStr (str "p1")); (str "name", JStr (str "Apollo"));
       (str "url", JNull);
       (str "projectStatus", JObj [(str "name", JStr (str "QA"))])],
      (JStr (str "p1")), (JStr (str "Apollo")). }
  eapply (list_team_projects_fallback_drops_partial scripted sample_repr sample_describe
           (str "team") 50 20 _ [sample_node] (JStr (str "c1")) _ _ _
           [sample_node] (JBool false) JNull []).
  - lia.
  - reflexivity.
  - exact Hn.
  - reflexivity.
  - reflexivity.
  - reflexivity.
  - exact Hn.
Defined.

(** ** Choosing the team *)

(** X10. A configured team id decides alone: the first team with that id is
    returned, whatever the team key says, and when no team has it the
    function raises, even if a single team is accessible. *)
Theorem pick_team_by_id (lower : pystr -> pystr) (teams : list Team.t)
        (id : pystr) (team_key : option pystr) :
  id <> [] ->
  ((exists t, In t teams /\ Team.id t = id) ->
   exists t, _pick_team lower teams (Some id) team_key = Ok t /\
             In t teams /\ Team.id t = id) /\
  ((forall t, In t teams -> Team.id t <> id) ->
   _pick_team lower teams (Some id) team_key =
   Raise (LinearAPIError (msg_team_id ++ id) (JArr []))).
Proof.
  intros Hid. unfold _pick_team, py_next.
  destruct id as [|c id']; [done|]. cbn [truthy or_else].
  destruct (List.find _ teams) as [t|] eqn:Hf.
  - apply find_some in Hf as [Hin Ht]. apply bool_decide_eq_true in Ht. split.
    + intros _. by exists t.
    + intros Hno. by destruct (Hno t Hin).
  - split; [|done]. intros (t & Hin & Ht).
    apply (find_none _ _ Hf) in Hin. apply bool_decide_eq_false in Hin. done.
Qed.

Lemma pick_team_by_id_witness :
  exists t, _pick_team (fun s => s)
              [Team.mk (str "t1") None (str "Core"); Team.mk (str "t2") (Some (str "OPS")) (str "Ops")]
              (Some (str "t2")) (Some (str "core")) = Ok t /\
            In t [Team.mk (str "t1") None (str "Core"); Team.mk (str "t2") (Some (str "OPS")) (str "Ops")] /\
            Team.id t = str "t2".
Proof.
  apply (pick_team_by_id (fun s => s)
           [Team.mk (str "t1") None (str "Core"); Team.mk (str "t2") (Some (str "OPS")) (str "Ops")]
           (str "t2") (Some (str "core"))).
  - discriminate.
  - eexists. split; [right; left; reflexivity|reflexivity].
Defined.

(** X11. Without a team id and a team key, the only accessible team is taken;
    with no team at all, or with several, the function raises an error that
    lists the accessible teams. *)
Theorem pick_team_default (lower : pystr -> pystr) (teams : list Team.t)
        (team_id team_key : option pystr) :
  truthy team_id = false -> truthy team_key = false ->
  (forall t, teams = [t] -> _pick_team lower teams team_id team_key = Ok t) /\
  (length teams <> 1%nat ->
   _pick_team lower teams team_id team_key =
   Raise (LinearAPIError (msg_many_teams ++ join (str ", ") (map team_label teams))
                         (JArr []))).
Proof.
  intros Hid Hkey. unfold _pick_team. rewrite Hid, Hkey. split.
  - by intros t ->.
  - intros Hlen. by destruct teams as [|t [|t' teams']].
Qed.

Lemma pick_team_default_witness :
  _pick_team (fun s => s) [] None (Some []) =
  Raise (LinearAPIError (msg_many_teams ++ join (str ", ") (map team_label []))
                        (JArr [])).
Proof.
  apply (proj2 (pick_team_default (fun s => s) [] None (Some []) eq_refl eq_refl)).
  discriminate.
Defined.

(** ** Truncation for any positive limit *)

Lemma slice_to_nonneg n s : 0 <= n -> slice_to n s = take (Z.to_nat n) s.
Proof. intros H. unfold slice_to. apply Z.leb_le in H. by rewrite H. Qed.

(** X12. For every limit of at least 1, [_truncate] returns at most that many
    characters, without whitespace at either end, and truncating again
    changes nothing. *)
Theorem truncate_bounded_clean_idempotent (s : pystr) (max_chars : Z) :
  1 <= max_chars ->
  len (_truncate s max_chars) <= max_chars /\
  strip (_truncate s max_chars) = _truncate s max_chars /\
  _truncate (_truncate s max_chars) max_chars = _truncate s max_chars.
Proof.
  intros Hm.
  assert (H12 : len (_truncate s max_chars) <= max_chars /\
                strip (_truncate s max_chars) = _truncate s max_chars).
  { destruct (Z_le_gt_dec (len (strip s)) max_chars) as [H|H].
    - rewrite truncate_short by done. split; [done|apply strip_idemp].
    - rewrite truncate_long by lia. rewrite slice_to_nonneg by lia. split.
      + unfold len. rewrite length_app. cbn [length].
        pose proof (rstrip_length (take (Z.to_nat (max_chars - 1)) (strip s))) as Hr.
        rewrite length_take in Hr. lia.
      + apply strip_id.
        * pose proof (strip_head_clean s) as Hh.
          destruct (strip s) as [|c t]; [unfold len in H; simpl in H; lia|].
          simpl in Hh. destruct (Z.to_nat (max_chars - 1)) as [|k]; [done|].
          change (take (S k) (c :: t)) with (c :: take k t).
          by rewrite rstrip_cons_clean.
        * unfold last_clean. by rewrite last_snoc. }
  destruct H12 as [H1 H2]. split; [done|]. split; [done|].
  rewrite truncate_short; rewrite H2; done.
Qed.

Lemma truncate_bounded_clean_idempotent_witness :
  len (_truncate (str "  weekly update  ") 5) <= 5 /\
  strip (_truncate (str "  weekly update  ") 5) = _truncate (str "  weekly update  ") 5 /\
  _truncate (_truncate (str "  weekly update  ") 5) 5 = _truncate (str "  weekly update  ") 5.
Proof. apply (truncate_bounded_clean_idempotent (str "  weekly update  ") 5). lia. Defined.

(** ** The cap on the facts sent to the text service *)

(** X13. The JSON text embedded in the prompt never exceeds 160000 characters: a
    text within the cap is left alone, a longer one is cut to its first
    159000 characters followed by the truncation marker. *)
Theorem cap_raw_bounded (raw : pystr) :
  len (cap_raw raw) <= 160000 /\
  (len raw <= 160000 -> cap_raw raw = raw) /\
  (160000 < len raw ->
   cap_raw raw = take (Z.to_nat 159000) raw ++ TRUNCATED_MARKER /\
   len (cap_raw raw) = 159016).
Proof.
  unfold cap_raw.
  destruct (Z.ltb_spec 160000 (len raw)) as [H|H].
  - rewrite slice_to_nonneg by lia.
    assert (Hl : len (take (Z.to_nat 159000) raw ++ TRUNCATED_MARKER) = 159016).
    { unfold len in *. rewrite length_app, length_take.
      change (length TRUNCATED_MARKER) with 16%nat. lia. }
    split; [lia|]. split; [lia|]. by intros _.
  - split; [done|]. split; [done|]. lia.
Qed.

(** ** The comment views *)

Lemma last_n_length {A} n (l : list A) : length (last_n n l) = Nat.min n (length l).
Proof. unfold last_n. rewrite length_drop. lia. Qed.

Lemma last_n_all {A} n (l : list A) : (length l <= n)%nat -> last_n n l = l.
Proof. intros H. unfold last_n. by replace (length l - n)%nat with 0%nat by lia. Qed.

Lemma last_n_map {A B} (f : A -> B) n (l : list A) :
  last_n n (map f l) = map f (last_n n l).
Proof. unfold last_n. rewrite length_map. symmetry. apply (fmap_drop f). Qed.

Lemma last_n_suffix {A} n (l : list A) :
  l = take (length l - n) l ++ last_n n l.
Proof. unfold last_n. by rewrite take_drop. Qed.

Lemma comment_fact_body_bounded isoformat c :
  len (CommentFact.body (comment_fact isoformat c)) <= 500.
Proof.
  simpl. pose proof (truncate_500_length (Comment.body c)) as H. unfold len. lia.
Qed.

(** X14. The "comments" of an issue fact are the last five of the comments
    created within the window, both ends included, in their original order;
    with five or fewer in the window all are kept; every body is at most 500
    characters long. *)
Theorem window_comments_last_five (isoformat : Z -> pystr) (start finish : Z)
        (comments : list Comment.t) :
  let eligible := List.filter (in_window start finish) comments in
  (forall c, In c eligible <->
             In c comments /\ start <= Comment.created_at c <= finish) /\
  window_comments isoformat start finish comments
    = map (comment_fact isoformat) (last_n 5 eligible) /\
  eligible = take (length eligible - 5) eligible ++ last_n 5 eligible /\
  length (window_comments isoformat start finish comments)
    = Nat.min 5 (length eligible) /\
  ((length eligible <= 5)%nat ->
   window_comments isoformat start finish comments
     = map (comment_fact isoformat) eligible) /\
  (forall f, In f (window_comments isoformat start finish comments) ->
             len (CommentFact.body f) <= 500).
Proof.
  intros eligible.
  assert (Hw : window_comments isoformat start finish comments
               = map (comment_fact isoformat) (last_n 5 eligible)).
  { unfold window_comments. cbv zeta. apply last_n_map. }
  split; [|split; [exact Hw|split; [apply last_n_suffix|split; [|split]]]].
  - intros c. unfold eligible, in_window.
    rewrite filter_In, andb_true_iff, !Z.leb_le. tauto.
  - rewrite Hw, length_map. apply last_n_length.
  - intros Hle. rewrite Hw. by rewrite last_n_all.
  - intros f Hf. rewrite Hw in Hf. apply in_map_iff in Hf as (c & <- & _).
    apply comment_fact_body_bounded.
Qed.

Lemma insert_desc_In {A} (key : A -> Z) x y l :
  In y (insert_desc key x l) <-> y = x \/ In y l.
Proof.
  induction l as [|z l IH]; simpl; [intuition congruence|].
  destruct (key z <=? key x); simpl; [intuition congruence|].
  rewrite IH. intuition congruence.
Qed.

Lemma insert_desc_length {A} (key : A -> Z) x l :
  length (insert_desc key x l) = S (length l).
Proof.
  induction l as [|z l IH]; simpl; [done|].
  destruct (key z <=? key x); simpl; [done|]. by rewrite IH.
Qed.

Lemma sorted_desc_In {A} (key : A -> Z) y l : In y (sorted_desc key l) <-> In y l.
Proof.
  induction l as [|x l IH]; simpl; [done|].
  rewrite insert_desc_In, IH. intuition congruence.
Qed.

Lemma sorted_desc_length {A} (key : A -> Z) l : length (sorted_desc key l) = length l.
Proof.
  induction l as [|x l IH]; simpl; [done|]. by rewrite insert_desc_length, IH.
Qed.

Lemma insert_desc_sorted {A} (key : A -> Z) x l :
  StronglySorted (fun a b => key b <= key a) l ->
  StronglySorted (fun a b => key b <= key a) (insert_desc key x l).
Proof.
  induction 1 as [|z l Hs IH Hall]; simpl.
  - repeat constructor.
  - destruct (key z <=? key x) eqn:E.
    + apply Z.leb_le in E. constructor; [by constructor|].
      constructor; [done|]. eapply Forall_impl; [exact Hall|].
      intros a Ha. simpl in Ha. lia.
    + apply Z.leb_gt in E. constructor; [done|].
      apply List.Forall_forall. intros a Ha.
      apply insert_desc_In in Ha as [->|Ha]; [lia|].
      rewrite List.Forall_forall in Hall. by apply Hall.
Qed.

Lemma sorted_desc_sorted {A} (key : A -> Z) l :
  StronglySorted (fun a b => key b <= key a) (sorted_desc key l).
Proof.
  induction l as [|x l IH]; simpl; [constructor|]. by apply insert_desc_sorted.
Qed.

Lemma sorted_app_order {A} (R : A -> A -> Prop) l1 l2 :
  StronglySorted R (l1 ++ l2) ->
  forall x y, In x l1 -> In y l2 -> R x y.
Proof.
  induction l1 as [|a l1 IH]; [done|]. simpl. intros Hs x y [<-|Hx] Hy.
  - apply StronglySorted_inv in Hs as [_ Hall].
    rewrite List.Forall_forall in Hall. apply Hall, in_app_iff. by right.
  - apply StronglySorted_inv in Hs as [Hs _]. by apply IH.
Qed.

(** X15. The "latest_comments" of a current-cycle issue are taken from all its
    comments, whatever the window: the three newest when there are that
    many, and no comment left out is newer than a comment kept. *)
Theorem latest_comments_three_newest (isoformat : Z -> pystr)
        (comments : list Comment.t) :
  let ranked := sorted_desc Comment.created_at comments in
  latest_comments isoformat comments = map (comment_fact isoformat) (take 3 ranked) /\
  length (latest_comments isoformat comments) = Nat.min 3 (length comments) /\
  (forall c, In c (take 3 ranked) -> In c comments) /\
  (forall c, In c comments -> In c (take 3 ranked) \/ In c (drop 3 ranked)) /\
  (forall kept left_out,
     In kept (take 3 ranked) -> In left_out (drop 3 ranked) ->
     Comment.created_at left_out <= Comment.created_at kept).
Proof.
  intros ranked. split; [done|]. split; [|split; [|split]].
  - unfold latest_comments. rewrite length_map, length_take.
    unfold ranked. by rewrite sorted_desc_length.
  - intros c Hc. apply (sorted_desc_In Comment.created_at).
    rewrite <- (take_drop 3 (sorted_desc _ _)). apply in_app_iff. by left.
  - intros c Hc. apply (sorted_desc_In Comment.created_at) in Hc.
    fold ranked in Hc. rewrite <- (take_drop 3 ranked) in Hc.
    by apply in_app_iff in Hc.
  - intros kept left_out Hk Hl.
    apply (sorted_app_order (fun a b => Comment.created_at b <= Comment.created_at a)
             (take 3 ranked) (drop 3 ranked)); [|done..].
    rewrite take_drop. apply sorted_desc_sorted.
Qed.

(** ** More on [_pick_cycles] *)

(** How a call of [_pick_cycles] can end. *)
Lemma pick_cycles_outcome cycles now :
  (exists current previous, _pick_cycles cycles now = Ok (current, previous)) \/
  _pick_cycles cycles now = Raise (LinearAPIError msg_no_pair (JArr [])) \/
  _pick_cycles cycles now = Raise (LinearAPIError msg_no_previous (JArr [])).
Proof.
  destruct (py_next (contains_instant now) (sorted_by Cycle.starts_at cycles))
    as [cur|] eqn:Hf.
  - destruct (previous_search cycles now cur Hf) as [HA HB].
    destruct (classic_previous cycles cur) as [Hex|Hno].
    + destruct (HA Hex) as (prev & E & _). left. by exists cur, prev.
    + right. right. by apply HB.
  - destruct (gap_search cycles now Hf) as [HA HB]. cbv zeta in HA, HB.
    destruct (List.filter (fun c => now <? Cycle.starts_at c) cycles) as [|f fs] eqn:Ef.
    { right. left. apply HB. by left. }
    destruct (List.filter (fun c => Cycle.ends_at c <=? now) cycles) as [|q qs] eqn:Ep.
    { right. left. apply HB. by right. }
    destruct HA as (cur & prev & E & _); [done|]. left. by exists cur, prev.
Qed.

(** X16. For well-formed cycles, a returned pair consists of two cycles of the
    list; the current cycle contains the reference instant or lies wholly
    after it; the previous cycle ends before the current one starts, and no
    cycle that ends before the current one starts ends later than it. *)
Theorem pick_cycles_result_invariants
    (cycles : list Cycle.t) (now : Z) (current previous : Cycle.t) :
  (forall c, In c cycles -> Cycle.starts_at c < Cycle.ends_at c) ->
  _pick_cycles cycles now = Ok (current, previous) ->
  In current cycles /\ In previous cycles /\ current <> previous /\
  (Cycle.starts_at current <= now <= Cycle.ends_at current \/
   now < Cycle.starts_at current) /\
  Cycle.ends_at previous < Cycle.starts_at current /\
  (forall c, In c cycles -> Cycle.ends_at c < Cycle.starts_at current ->
             Cycle.ends_at c <= Cycle.ends_at previous).
Proof.
  intros Hwf Hr.
  assert (Hcore : In current cycles /\ In previous cycles /\
    (Cycle.starts_at current <= now <= Cycle.ends_at current \/
     now < Cycle.starts_at current) /\
    Cycle.ends_at previous < Cycle.starts_at current /\
    (forall c, In c cycles -> Cycle.ends_at c < Cycle.starts_at current ->
               Cycle.ends_at c <= Cycle.ends_at previous)).
  { pose proof (current_search cycles now) as Hs.
    destruct (py_next (contains_instant now) (sorted_by Cycle.starts_at cycles))
      as [cur|] eqn:Hf.
    - destruct Hs as (Hin & Hc & _). apply contains_instant_spec in Hc.
      destruct (previous_search cycles now cur Hf) as [HA HB].
      destruct (classic_previous cycles cur) as [Hex|Hno].
      + destruct (HA Hex) as (prev & E & Hp & Hlt & Hmax).
        rewrite E in Hr. injection Hr as <- <-. repeat split; auto; lia.
      + rewrite HB in Hr; [discriminate|done].
    - destruct (gap_search cycles now Hf) as [HA HB]. cbv zeta in HA, HB.
      destruct (List.filter (fun c => now <? Cycle.starts_at c) cycles)
        as [|f fs] eqn:Ef.
      { rewrite HB in Hr by auto. discriminate. }
      destruct (List.filter (fun c => Cycle.ends_at c <=? now) cycles)
        as [|q qs] eqn:Ep.
      { rewrite HB in Hr by auto. discriminate. }
      destruct HA as (cur & prev & E & Hc & Hcmin & Hp & Hpmax); [done|].
      rewrite E in Hr. injection Hr as <- <-.
      rewrite <- Ef in Hc, Hcmin. rewrite <- Ep in Hp, Hpmax.
      apply filter_In in Hc as [Hc1 Hc2]. apply filter_In in Hp as [Hp1 Hp2].
      apply Z.ltb_lt in Hc2. apply Z.leb_le in Hp2.
      repeat split; auto; try lia.
      intros c Hin Hlt.
      destruct (Z_le_gt_dec (Cycle.ends_at c) now) as [Hle|Hgt].
      + apply Hpmax, filter_In. split; [done|by apply Z.leb_le].
      + pose proof (Hs c Hin) as Hnc. unfold contains_instant in Hnc.
        apply andb_false_iff in Hnc as [Hnc|Hnc];
          [apply Z.leb_gt in Hnc|apply Z.leb_gt in Hnc; lia].
        assert (Hfut : In c (List.filter (fun c => now <? Cycle.starts_at c) cycles)).
        { apply filter_In. split; [done|by apply Z.ltb_lt]. }
        specialize (Hcmin c Hfut). specialize (Hwf c Hin). lia. }
  destruct Hcore as (H1 & H2 & H3 & H4 & H5). repeat split; auto.
  intros ->. specialize (Hwf previous H2). lia.
Qed.

Lemma pick_cycles_result_invariants_witness :
  In sprint_2 [sprint_2; sprint_1] /\ In sprint_1 [sprint_2; sprint_1] /\
  sprint_2 <> sprint_1 /\
  (Cycle.starts_at sprint_2 <= 1500 <= Cycle.ends_at sprint_2 \/
   1500 < Cycle.starts_at sprint_2) /\
  Cycle.ends_at sprint_1 < Cycle.starts_at sprint_2 /\
  (forall c, In c [sprint_2; sprint_1] -> Cycle.ends_at c < Cycle.starts_at sprint_2 ->
             Cycle.ends_at c <= Cycle.ends_at sprint_1).
Proof.
  apply (pick_cycles_result_invariants [sprint_2; sprint_1] 1500).
  - intros c [<-|[<-|[]]]; simpl; lia.
  - reflexivity.
Defined.

(** X17. [_pick_cycles] fails only with one of its two [LinearAPIError]s, never
    with an exception of [min] or [max]; and from fewer than two well-formed
    cycles it always fails. *)
Theorem pick_cycles_needs_two_cycles (cycles : list Cycle.t) (now : Z) :
  (forall c, In c cycles -> Cycle.starts_at c < Cycle.ends_at c) ->
  (length cycles <= 1)%nat ->
  _pick_cycles cycles now = Raise (LinearAPIError msg_no_pair (JArr [])) \/
  _pick_cycles cycles now = Raise (LinearAPIError msg_no_previous (JArr [])).
Proof.
  intros Hwf Hlen.
  destruct (pick_cycles_outcome cycles now) as [(cur & prev & E)|H]; [|done].
  exfalso.
  assert (Hinv : In cur cycles /\ In prev cycles /\
                 Cycle.ends_at prev < Cycle.starts_at cur).
  { pose proof (current_search cycles now) as Hs.
    destruct (py_next (contains_instant now) (sorted_by Cycle.starts_at cycles))
      as [c0|] eqn:Hf.
    - destruct Hs as (Hin & _).
      destruct (previous_search cycles now c0 Hf) as [HA HB].
      destruct (classic_previous cycles c0) as [Hex|Hno].
      + destruct (HA Hex) as (p0 & E0 & Hp & Hlt & _).
        rewrite E0 in E. by injection E as <- <-.
      + rewrite HB in E; [discriminate|done].
    - destruct (gap_search cycles now Hf) as [HA HB]. cbv zeta in HA, HB.
      destruct (List.filter (fun c => now <? Cycle.starts_at c) cycles)
        as [|f fs] eqn:Ef.
      { rewrite HB in E by auto. discriminate. }
      destruct (List.filter (fun c => Cycle.ends_at c <=? now) cycles)
        as [|q qs] eqn:Ep.
      { rewrite HB in E by auto. discriminate. }
      destruct HA as (c1 & p1 & E1 & Hc & _ & Hp & _); [done|].
      rewrite E1 in E. injection E as <- <-.
      rewrite <- Ef in Hc. rewrite <- Ep in Hp.
      apply filter_In in Hc as [Hc1 Hc2]. apply filter_In in Hp as [Hp1 Hp2].
      apply Z.ltb_lt in Hc2. apply Z.leb_le in Hp2. repeat split; auto. lia. }
  destruct Hinv as (Hc & Hp & Hlt).
  destruct cycles as [|c [|c' cycles']].
  - destruct Hc.
  - destruct Hc as [<-|[]], Hp as [<-|[]].
    specialize (Hwf c (or_introl eq_refl)). lia.
  - simpl in Hlen. lia.
Qed.

Lemma pick_cycles_needs_two_cycles_witness :
  _pick_cycles [sprint_1] 500 = Raise (LinearAPIError msg_no_pair (JArr [])) \/
  _pick_cycles [sprint_1] 500 = Raise (LinearAPIError msg_no_previous (JArr [])).
Proof.
  apply (pick_cycles_needs_two_cycles [sprint_1] 500).
  - intros c [<-|[]]; simpl; lia.
  - simpl. lia.
Defined.

(** ** The shape of the rendered document *)

Lemma rstrip_app_clean a x :
  a <> [] -> last_clean a -> exists y, rstrip (a ++ x) = a ++ y.
Proof.
  induction a as [|c a IH]; [done|]. intros _ Hl.
  destruct a as [|d a].
  - unfold last_clean in Hl. simpl in Hl.
    exists (rstrip x). simpl app. by rewrite rstrip_cons_clean.
  - destruct IH as (y & Hy); [done| |].
    { unfold last_clean in *. by rewrite last_cons_cons in Hl. }
    exists y. change ((c :: d :: a) ++ x) with (c :: ((d :: a) ++ x)).
    cbn [rstrip]. rewrite Hy. done.
Qed.

(** X18. Whatever the facts, the rendered document opens with the title line
    naming the team and ends with exactly one line feed, nothing blank
    before it. *)
Theorem facts_to_markdown_shape (_fmt : pystr -> pystr) (facts : Facts.t) :
  exists rest,
    _facts_to_markdown _fmt facts =
      (str "# Weekly Update (" ++ Facts.team_name facts ++ str ")") ++ rest ++ [NL] /\
    last_clean ((str "# Weekly Update (" ++ Facts.team_name facts ++ str ")") ++ rest).
Proof.
  unfold _facts_to_markdown. cbv zeta.
  set (title := str "# Weekly Update (" ++ Facts.team_name facts ++ str ")").
  set (more := concat (map project_lines (Facts.projects facts))).
  assert (Ej : exists x, join [NL] (header_lines _fmt facts ++ more) = title ++ x).
  { unfold header_lines. fold title. eexists. apply join_cons. }
  destruct Ej as (x & Ej).
  destruct (rstrip_app_clean title x) as (y & Hy).
  - unfold title. by destruct (Facts.team_name facts).
  - unfold title, last_clean. change (str ")") with [41%N].
    by rewrite !app_assoc, last_snoc.
  - exists y. split.
    + rewrite Ej, Hy. by rewrite <- app_assoc.
    + rewrite <- Hy, <- Ej. apply rstrip_last_clean.
Qed.

(** ** A project without issues *)

Lemma no_updates_body p :
  ProjectFact.last_week_issues p = [] -> ProjectFact.this_week_issues p = [] ->
  strip (join [NL] (project_body_lines p)) = status_line p ++ no_updates_text.
Proof.
  intros Hl Ht. unfold project_body_lines. rewrite Hl, Ht.
  assert (Ej : join [NL] ([status_line p; []] ++ [str "**Last Week**"]
                 ++ issue_lines [] ++ [[]] ++ [str "**This Week**"]
                 ++ issue_lines [] ++ [[]])
               = (status_line p ++ no_updates_text) ++ [NL]).
  { unfold no_updates_text. cbn [issue_lines nonempty negb app join].
    rewrite <- !app_assoc. reflexivity. }
  rewrite Ej, strip_snoc_space by done.
  destruct (status_line_starts p) as (s & Es). rewrite Es.
  apply strip_id; [done|]. unfold last_clean. rewrite last_app.
  by change (last no_updates_text) with (Some 115%N).
Qed.

Lemma route_after_render (_fmt : pystr -> pystr) (facts : Facts.t) :
  single_line (Facts.team_name facts) ->
  single_line (_fmt (Facts.generated_at_utc facts)) ->
  Forall project_single_line (Facts.projects facts) ->
  NoDup (map (fun p => _normalize_name (ProjectFact.name p)) (Facts.projects facts)) ->
  _parse_project_updates (_facts_to_markdown _fmt facts) facts =
    map (fun p => Update.mk (ProjectFact.id p) (ProjectFact.name p)
                            (strip (join [NL] (project_body_lines p))))
        (Facts.projects facts).
Proof.
  intros Ht Hg Hps Hnd.
  unfold _parse_project_updates. cbv zeta. rewrite route_sections_pairs.
  destruct (Facts.projects facts) as [|p ps] eqn:Eps.
  - apply route_no_projects.
  - rewrite rendered_document_sections by (rewrite ?Eps; done).
    rewrite Eps. by apply route_rendered_sections.
Qed.

(** X19. A project with no issue in either window is not skipped on the way
    back: for a well-formed fact document the router returns for it an
    update whose body is its status line followed by "No updates" under both
    headings. *)
Theorem empty_project_is_routed (_fmt : pystr -> pystr) (facts : Facts.t)
        (p : ProjectFact.t) :
  single_line (Facts.team_name facts) ->
  single_line (_fmt (Facts.generated_at_utc facts)) ->
  Forall project_single_line (Facts.projects facts) ->
  NoDup (map (fun p => _normalize_name (ProjectFact.name p)) (Facts.projects facts)) ->
  In p (Facts.projects facts) ->
  ProjectFact.last_week_issues p = [] -> ProjectFact.this_week_issues p = [] ->
  In (Update.mk (ProjectFact.id p) (ProjectFact.name p)
                (status_line p ++ no_updates_text))
     (_parse_project_updates (_facts_to_markdown _fmt facts) facts).
Proof.
  intros Ht Hg Hps Hnd Hin Hl Hw.
  rewrite route_after_render by done.
  apply in_map_iff. exists p. split; [|done]. by rewrite no_updates_body.
Qed.

Lemma empty_project_is_routed_witness :
  In (Update.mk (ProjectFact.id idle) (ProjectFact.name idle)
                (status_line idle ++ no_updates_text))
     (_parse_project_updates (_facts_to_markdown sample_fmt idle_facts) idle_facts).
Proof.
  apply (empty_project_is_routed sample_fmt idle_facts idle).
  - apply single_line_bool. reflexivity.
  - apply single_line_bool. reflexivity.
  - repeat constructor; try (apply single_line_bool; reflexivity); discriminate.
  - vm_compute. repeat constructor; rewrite ?list_elem_of_In; simpl; intuition discriminate.
  - right. left. reflexivity.
  - reflexivity.
  - reflexivity.
Defined.

(** ** More on the router *)

(** X20. [_normalize_name] is idempotent; its result has no whitespace at either
    end and none of the three dash characters it replaces. *)
Theorem normalize_name_canonical (name : pystr) :
  _normalize_name (_normalize_name name) = _normalize_name name /\
  head_clean (_normalize_name name) /\ last_clean (_normalize_name name) /\
  (forall c, In c (_normalize_name name) ->
             c <> NB_HYPHEN /\ c <> EN_DASH /\ c <> EM_DASH).
Proof.
  set (f := fun c : N => if ((c =? NB_HYPHEN) || (c =? EN_DASH) || (c =? EM_DASH))%N
                         then HYPHEN else c).
  assert (Hff : forall s, map f (map f s) = map f s).
  { intros s. rewrite map_map. apply map_ext. intros c. unfold f.
    destruct (N.eqb_spec c NB_HYPHEN) as [->|H1]; [done|].
    destruct (N.eqb_spec c EN_DASH) as [->|H2]; [done|].
    destruct (N.eqb_spec c EM_DASH) as [->|H3]; [done|]. simpl.
    apply N.eqb_neq in H1, H2, H3. by rewrite H1, H2, H3. }
  rewrite !normalize_as_map. fold f. split; [|split; [|split]].
  - rewrite (strip_map f (strip (map f name)) dash_map_keeps_space), strip_idemp.
    rewrite <- (strip_map f (map f name) dash_map_keeps_space). by rewrite Hff.
  - apply strip_head_clean.
  - apply strip_last_clean.
  - intros c Hc. rewrite (strip_map f _ dash_map_keeps_space) in Hc.
    apply in_map_iff in Hc as (d & <- & _). unfold f.
    destruct (N.eqb_spec d NB_HYPHEN) as [->|H1]; [done|].
    destruct (N.eqb_spec d EN_DASH) as [->|H2]; [done|].
    by destruct (N.eqb_spec d EM_DASH) as [->|H3].
Qed.

Lemma lines_of_cons s : exists l rest, lines_of s = l :: rest.
Proof.
  induction s as [|c s (l & rest & IH)]; simpl; [by eexists _, _|].
  destruct (c =? NL)%N; [by eexists _, _|]. rewrite IH. by eexists _, _.
Qed.

Lemma split_sections_cons cur l rest :
  exists c t, split_sections cur l rest = c :: t.
Proof.
  revert cur l. induction rest as [|l' rest IH]; intros cur l; simpl.
  - destruct (heading_of l); by eexists _, _.
  - destruct (heading_of l); [by eexists _, _|]. apply IH.
Qed.

Lemma split_sections_pairs rest : forall cur l,
  length (heading_body_pairs (tail (split_sections cur l rest))) =
  length (List.filter is_heading (l :: rest)).
Proof.
  induction rest as [|l' rest IH]; intros cur l.
  - cbn [split_sections List.filter]. unfold is_heading.
    by destruct (heading_of l).
  - cbn [split_sections].
    assert (Ef : List.filter is_heading (l :: l' :: rest) =
                 if is_heading l then l :: List.filter is_heading (l' :: rest)
                 else List.filter is_heading (l' :: rest)) by done.
    rewrite Ef. unfold is_heading at 1.
    destruct (heading_of l) as [h|]; cbn [is_not_none].
    + destruct (split_sections_cons [NL] l' rest) as (c & t & E).
      specialize (IH [NL] l'). rewrite E in *. cbn [tail heading_body_pairs length app].
      cbn [tail] in IH. by rewrite IH.
    + apply IH.
Qed.

Lemma no_heading_filter (ls : list pystr) :
  Forall (fun line => heading_of line = None) ls -> List.filter is_heading ls = [].
Proof.
  induction 1 as [|l ls Hl _ IH]; [done|].
  cbn [List.filter]. unfold is_heading at 1. by rewrite Hl.
Qed.

Lemma omap_length_le {A B} (f : A -> option B) (l : list A) :
  (length (omap f l) <= length l)%nat.
Proof.
  induction l as [|x l IH]; [done|]. cbn [omap list_omap].
  destruct (f x); simpl; lia.
Qed.

(** X21. The router returns at most one update per heading line of the document,
    and in particular none for a document without a heading line; every
    update it returns bears the id and name of a project of the fact
    document and a body that is not empty and has no whitespace at either
    end. *)
Theorem parse_project_updates_bounds (markdown : pystr) (facts : Facts.t) :
  (length (_parse_project_updates markdown facts)
     <= length (List.filter is_heading (lines_of markdown)))%nat /\
  (Forall (fun line => heading_of line = None) (lines_of markdown) ->
   _parse_project_updates markdown facts = []) /\
  (forall u, In u (_parse_project_updates markdown facts) ->
     (exists p, In p (Facts.projects facts) /\
                Update.project_id u = ProjectFact.id p /\
                Update.project_name u = ProjectFact.name p) /\
     Update.body u <> [] /\ strip (Update.body u) = Update.body u).
Proof.
  assert (Hlen : (length (_parse_project_updates markdown facts)
     <= length (List.filter is_heading (lines_of markdown)))%nat).
  { unfold _parse_project_updates. cbv zeta. rewrite route_sections_pairs.
    unfold re_split_headings.
    destruct (lines_of_cons markdown) as (l & rest & ->).
    rewrite <- split_sections_pairs with (cur := []).
    apply omap_length_le. }
  split; [exact Hlen|]. split.
  - intros Hnone.
    rewrite (no_heading_filter _ Hnone) in Hlen.
    destruct (_parse_project_updates markdown facts); [done|simpl in Hlen; lia].
  - intros u Hu. unfold _parse_project_updates in Hu. cbv zeta in Hu.
    rewrite route_sections_pairs in Hu.
    apply list_elem_of_In, list_elem_of_omap in Hu as ([h b] & _ & Hr).
    unfold route_pair in Hr. cbn [fst snd] in Hr.
    destruct (matching_project _ h) as [p|] eqn:Hm; [|done].
    destruct (strip b) as [|c t] eqn:Hb; [done|]. simpl in Hr. injection Hr as <-.
    apply matching_project_Some in Hm as [Hp _]. split; [by exists p|].
    split; [done|]. cbn [Update.body]. rewrite <- Hb. apply strip_idemp.
Qed.

(** ** Loading the configuration *)

Lemma strip_or_none_trimmed s : trimmed_opt (strip_or_none s).
Proof.
  unfold strip_or_none. destruct (strip s) as [|c t] eqn:E; [done|].
  split; [done|]. rewrite <- E. apply strip_idemp.
Qed.

Lemma strip_or_trimmed s d : trimmed d -> trimmed (strip_or s d).
Proof.
  intros Hd. unfold strip_or. destruct (strip s) as [|c t] eqn:E; [done|].
  split; [done|]. rewrite <- E. apply strip_idemp.
Qed.

(** X22. [load_config] fails exactly when LINEAR_API_KEY is unset or blank.
    Otherwise every text of the configuration is trimmed and non-empty: the
    API key and the model always, the team id, team key, text-service key and
    provider whenever they are present (a blank value counts as absent). *)
Theorem load_config_normalizes (env : gmap (list N) (list N))
        (team_id team_key : option pystr) (output_path : option path) :
  (load_config env team_id team_key output_path = MissingLinearApiKey <->
   strip (default [] (env !! str "LINEAR_API_KEY")) = []) /\
  (forall config,
     load_config env team_id team_key output_path = Loaded config ->
     AppConfig.linear_api_key config = strip (default [] (env !! str "LINEAR_API_KEY")) /\
     trimmed (AppConfig.linear_api_key config) /\
     trimmed_opt (AppConfig.team_id config) /\
     trimmed_opt (AppConfig.team_key config) /\
     trimmed_opt (AppConfig.openrouter_api_key config) /\
     trimmed (AppConfig.openrouter_model config) /\
     trimmed_opt (AppConfig.openrouter_provider config)).
Proof.
  unfold load_config, getenv.
  destruct (strip (default [] (env !! str "LINEAR_API_KEY"))) as [|c t] eqn:E.
  - split; [done|]. by intros config.
  - split; [done|]. intros config [= <-]. cbn [AppConfig.linear_api_key
      AppConfig.team_id AppConfig.team_key AppConfig.openrouter_api_key
      AppConfig.openrouter_model AppConfig.openrouter_provider].
    split; [done|]. split; [split; [done|]; rewrite <- E; apply strip_idemp|].
    repeat split; try apply strip_or_none_trimmed; try (by apply strip_or_trimmed).
Qed.

(** X23. The team id given on the command line, when not empty, is the one used
    (trimmed; if it is blank no team id is configured, whatever the
    environment holds); without one, LINEAR_TEAM_ID of the environment is
    used, trimmed. *)
Theorem load_config_team_id_precedence (env : gmap (list N) (list N))
        (team_id team_key : option pystr) (output_path : option path)
        (config : AppConfig.t) :
  load_config env team_id team_key output_path = Loaded config ->
  (forall arg, team_id = Some arg -> arg <> [] ->
     AppConfig.team_id config = strip_or_none arg) /\
  (team_id = None \/ team_id = Some [] ->
     AppConfig.team_id config =
     strip_or_none (default [] (env !! str "LINEAR_TEAM_ID"))).
Proof.
  unfold load_config.
  destruct (negb (nonempty (strip (getenv env (str "LINEAR_API_KEY"))))); [done|].
  intros [= <-]. cbn [AppConfig.team_id]. split.
  - intros arg -> Hne. by destruct arg.
  - intros [->| ->]; cbn [or_else];
      by destruct (env !! str "LINEAR_TEAM_ID") as [[|c s]|].
Qed.

Lemma load_config_team_id_precedence_witness :
  AppConfig.team_id
    (AppConfig.mk (str "lin_api_1") None None None (str "moonshotai/kimi-k2.5") None
                  (Path (str "updates/weekly_update.md")))
  = strip_or_none (str "   ").
Proof.
  refine (proj1 (load_config_team_id_precedence
                   (<[str "LINEAR_API_KEY" := str " lin_api_1 "]>
                      (<[str "LINEAR_TEAM_ID" := str "team-42"]> ∅))
                   (Some (str "   ")) None None
                   (AppConfig.mk (str "lin_api_1") None None None
                                 (str "moonshotai/kimi-k2.5") None
                                 (Path (str "updates/weekly_update.md")))
                   _)
                (str "   ") eq_refl _).
  - vm_compute. reflexivity.
  - discriminate.
Defined.

(** ** The router against the specification's line scanner *)























Example dashed_document_routed :
  _parse_project_updates dashed_document dashed_facts =
  [Update.mk (str "p1") (str "Alpha-Beta") (str "shipped")].
Proof. by vm_compute. Qed.

(** ** The two query shapes of the project listing *)

Lemma list_team_projects_unfold {World : Type}
      (post : pystr -> json -> World -> result Response.t * World)
      (py_repr : json -> pystr) (describe : builtin_error -> pystr)
      team_id first max_pages w :
  list_team_projects post py_repr describe team_id first max_pages w =
  match attempt post py_repr (str "status") STATUS_QUERY team_id first max_pages w with
  | (Ok projects, w1) => (Ok projects, w1)
  | (Raise e1, w1) =>
      match attempt post py_repr (str "projectStatus") PROJECT_STATUS_QUERY
                    team_id first max_pages w1 with
      | (Ok projects, w2) => (Ok projects, w2)
      | (Raise e2, w2) =>
          (Raise (LinearAPIError (msg_projects_failed ++ str_exn describe e2) (JArr [])),
           w2)
      end
  end.
Proof.
  unfold list_team_projects, attempt. cbn [try_queries].
  destruct (project_pages _ _ _ STATUS_QUERY _ _ _ _ _ w) as [[ps|e1] w1]; [done|].
  by destruct (project_pages _ _ _ PROJECT_STATUS_QUERY _ _ _ _ _ w1) as [[ps|e2] w2].
Qed.

(** C8 as stated fails: when both shapes fail, the error raised carries the
    text of the second failure only; neither the first failure nor the
    label of the second shape appears in its message. *)
Lemma list_team_projects_names_last_only :
  exists msg,
    list_team_projects scripted sample_repr sample_describe (str "team") 50 20 both_down
      = (Raise (LinearAPIError msg (JArr [])), []) /\
    is_substring (str "second attempt timed out") msg = true /\
    is_substring (str "first attempt refused") msg = false /\
    is_substring (str "projectStatus") msg = false.
Proof. eexists. by vm_compute. Qed.

(** C8 (amended). [list_team_projects] runs the "status" shape first and
    returns its projects when it succeeds, without trying the other shape;
    when the first attempt ends in any exception it runs the "projectStatus"
    shape from the start and returns its projects when that succeeds; when
    both attempts end in an exception it raises one [LinearAPIError] whose
    message is the fixed text followed by the text of the second exception
    only. *)
Theorem list_team_projects_falls_back {World : Type}
        (post : pystr -> json -> World -> result Response.t * World)
        (py_repr : json -> pystr) (describe : builtin_error -> pystr)
        (team_id : pystr) (first max_pages : Z) (w : World) :
  (forall projects w1,
     attempt post py_repr (str "status") STATUS_QUERY team_id first max_pages w
       = (Ok projects, w1) ->
     list_team_projects post py_repr describe team_id first max_pages w
       = (Ok projects, w1)) /\
  (forall e1 w1,
     attempt post py_repr (str "status") STATUS_QUERY team_id first max_pages w
       = (Raise e1, w1) ->
     (forall projects w2,
        attempt post py_repr (str "projectStatus") PROJECT_STATUS_QUERY
                team_id first max_pages w1 = (Ok projects, w2) ->
        list_team_projects post py_repr describe team_id first max_pages w
          = (Ok projects, w2)) /\
     (forall e2 w2,
        attempt post py_repr (str "projectStatus") PROJECT_STATUS_QUERY
                team_id first max_pages w1 = (Raise e2, w2) ->
        list_team_projects post py_repr describe team_id first max_pages w
          = (Raise (LinearAPIError (msg_projects_failed ++ str_exn describe e2)
                                   (JArr [])), w2))).
Proof.
  split.
  - intros projects w1 H. by rewrite list_team_projects_unfold, H.
  - intros e1 w1 H1. split.
    + intros projects w2 H2. by rewrite list_team_projects_unfold, H1, H2.
    + intros e2 w2 H2. by rewrite list_team_projects_unfold, H1, H2.
Qed.

Lemma list_team_projects_falls_back_witness :
  list_team_projects scripted sample_repr sample_describe (str "team") 50 20 both_down
  = (Raise (LinearAPIError
              (msg_projects_failed
                 ++ str_exn sample_describe (HTTPError (str "second attempt timed out")))
              (JArr [])), []).
Proof.
  refine (proj2 (proj2 (list_team_projects_falls_back scripted sample_repr sample_describe
                          (str "team") 50 20 both_down)
                   (HTTPError (str "first attempt refused"))
                   [Raise (HTTPError (str "second attempt timed out"))] _)
            (HTTPError (str "second attempt timed out")) [] _).
  - reflexivity.
  - reflexivity.
Defined.

(** ** Project health, degraded *)



